(** * ghidra_bridge: flat-API projection into a caller namespace

    Shallow embedding of [src/ghidra_bridge/ghidra_bridge.py]: the class
    [GhidraBridge] with [__init__], [get_flat_api], [unload_flat_api],
    [__exit__], and the nested class [InteractiveListener].

    Python objects are modelled by the type [value]; a Python [dict] is an
    association list in insertion order with unique keys; the namespaces the
    caller hands to the bridge are shared by reference, so they live in a
    heap indexed by locations. *)

From Stdlib Require Import List String Ascii Bool ZArith Arith Lia.
Import ListNotations.
Local Open Scope string_scope.
Local Open Scope list_scope.

Local Set Warnings "-register-all".

(** ** Python values *)

(** The objects that can sit in a namespace: [None], booleans, integers,
    strings, the float [nan], bridged remote objects (a handle into the
    remote side) and dictionaries with string keys.  [nan] is the one value
    that is not [==] to itself; it carries the identity [obj] of its float
    object, which a comparison of two dictionaries looks at.  The other
    floats are outside this universe. *)
Inductive value : Type :=
| VNone
| VBool (b : bool)
| VInt (n : Z)
| VStr (s : string)
| VNaN (obj : nat)
| VBridged (handle : nat)
| VDict (items : list (string * value)).

Definition dict := list (string * value).

Definition bool_as_int (b : bool) : Z := if b then 1%Z else 0%Z.

(** [a is b], where it can change the outcome of a comparison: a dictionary
    takes two of its values for equal when they are the same object or
    [==], and only a [nan] is not [==] to itself. *)
Definition same_object (a b : value) : bool :=
  match a, b with
  | VNaN i, VNaN j => Nat.eqb i j
  | _, _ => false
  end.

(** Python's [a == b].  [bool] is a subclass of [int], so [True == 1]; a
    [nan] is [==] to nothing, itself included; bridged objects compare by
    identity of the handle; two dictionaries are equal when they have the
    same size and every item of the left one has, under the same key of the
    right one, the same object or an equal one (keys are unique in a
    dict). *)
Fixpoint py_eq (a b : value) {struct a} : bool :=
  match a, b with
  | VNone, VNone => true
  | VBool x, VBool y => Bool.eqb x y
  | VBool x, VInt y => Z.eqb (bool_as_int x) y
  | VInt x, VBool y => Z.eqb x (bool_as_int y)
  | VInt x, VInt y => Z.eqb x y
  | VStr x, VStr y => String.eqb x y
  | VBridged x, VBridged y => Nat.eqb x y
  | VDict d1, VDict d2 =>
      Nat.eqb (List.length d1) (List.length d2)
      && forallb (fun kv1 =>
                    existsb (fun kv2 =>
                               String.eqb (fst kv1) (fst kv2)
                               && (same_object (snd kv1) (snd kv2)
                                   || py_eq (snd kv1) (snd kv2))) d2) d1
  | _, _ => false
  end.

(** The number of constructors of a value, to reason on the values held
    inside a dictionary. *)
Fixpoint value_size (v : value) : nat :=
  match v with
  | VDict items =>
      S ((fix total (l : list (string * value)) : nat :=
            match l with
            | [] => 0
            | kv :: l' => value_size (snd kv) + total l'
            end) items)
  | _ => 1
  end.

(** ** Dictionaries in insertion order *)

(** [key in d] *)
Fixpoint dict_contains (k : string) (d : dict) : bool :=
  match d with
  | [] => false
  | (k', _) :: d' => String.eqb k k' || dict_contains k d'
  end.

(** [d.get(key)]: [None] stands for a missing key. *)
Fixpoint dict_get (k : string) (d : dict) : option value :=
  match d with
  | [] => None
  | (k', v) :: d' => if String.eqb k k' then Some v else dict_get k d'
  end.

(** [d[key] = v]: an existing key keeps its position and takes the new
    value, a new key goes to the end. *)
Fixpoint dict_set (k : string) (v : value) (d : dict) : dict :=
  match d with
  | [] => [(k, v)]
  | (k', v') :: d' =>
      if String.eqb k k' then (k', v) :: d' else (k', v') :: dict_set k v d'
  end.

(** [del d[key]] for a key that is present (the source guards its [del]
    with [key in namespace]): the entry of the key goes, the others keep
    their order. *)
Fixpoint dict_del (k : string) (d : dict) : dict :=
  match d with
  | [] => []
  | (k', v') :: d' =>
      if String.eqb k k' then dict_del k d' else (k', v') :: dict_del k d'
  end.

(** [d.keys()] *)
Definition dict_keys (d : dict) : list string := map fst d.

(** ** Module constants *)

Definition EXCLUDED_REMOTE_IMPORTS : list string :=
  ["logging"; "subprocess"; "ghidra_bridge"; "bridge"; "GhidraBridgeServer"].

Definition GHIDRA_BRIDGE_NAMESPACE_TRACK : string :=
  "__ghidra_bridge_namespace_track__".

(** [s in l] for a list of strings. *)
Definition str_in (s : string) (l : list string) : bool :=
  existsb (String.eqb s) l.

(** [attr.startswith(p)] *)
Definition startswith (attr p : string) : bool := String.prefix p attr.

(** ** The remote [__main__] module *)

(** What [self.bridge.remote_import("__main__")] hands back: the ordered
    attribute list [_bridge_attrs], attribute resolution [getattr], and the
    tool reached through [remote_main.state.getTool()]. *)
Record RemoteMain : Type := {
  _bridge_attrs : list string;
  getattr : string -> value;
  state_getTool : nat
}.

(** The exceptions raised by the source, and those Python would raise for an
    ill-typed sentinel slot. *)
Inductive exn : Type :=
| NoServer            (* "Can't get_flat_api for the namespace if connect_to_host/port are none" *)
| NoNamespace         (* "Bridge wasn't initialized with a namespace" *)
| NotProjected        (* GHIDRA_BRIDGE_NAMESPACE_TRACK + " not present in namespace" *)
| KeyError
| TypeError
| AttributeError
| RemoteError         (* a call to the remote side that failed *).

Definition result (A : Type) : Type := (exn + A)%type.

(** ** [get_flat_api], lines 84-94: loading into a namespace *)

(** The guard of line 90. *)
Definition is_projected (attr : string) : bool :=
  negb (startswith attr "__") && negb (str_in attr EXCLUDED_REMOTE_IMPORTS).

(** One turn of the loop of line 89, lines 90-94.
    [namespace[GHIDRA_BRIDGE_NAMESPACE_TRACK][attr] = remote_attr] reads the
    sentinel slot again at every turn and updates the dictionary found there. *)
Definition load_attr (remote_main : RemoteMain) (namespace : dict)
    (attr : string) : result dict :=
  if is_projected attr then
    let remote_attr := getattr remote_main attr in
    let namespace := dict_set attr remote_attr namespace in
    match dict_get GHIDRA_BRIDGE_NAMESPACE_TRACK namespace with
    | None => inl KeyError
    | Some (VDict track) =>
        inr (dict_set GHIDRA_BRIDGE_NAMESPACE_TRACK
               (VDict (dict_set attr remote_attr track)) namespace)
    | Some _ => inl TypeError
    end
  else inr namespace.

(** [for attr in attrs: ...], stopping at the first exception. *)
Fixpoint load_attrs (remote_main : RemoteMain) (attrs : list string)
    (namespace : dict) : result dict :=
  match attrs with
  | [] => inr namespace
  | attr :: attrs' =>
      match load_attr remote_main namespace attr with
      | inl e => inl e
      | inr namespace' => load_attrs remote_main attrs' namespace'
      end
  end.

(** Lines 86-94, the body of [if namespace is not None]. *)
Definition load_namespace (remote_main : RemoteMain) (namespace : dict)
    : result dict :=
  let namespace := dict_set GHIDRA_BRIDGE_NAMESPACE_TRACK (VDict []) namespace in
  load_attrs remote_main (_bridge_attrs remote_main) namespace.

(** ** [unload_flat_api], lines 108-115: unloading from a namespace *)

(** Lines 110-112, one turn of the loop over the recorded items. *)
Definition unload_item (namespace : dict) (item : string * value) : dict :=
  let (key, value) := item in
  match dict_get key namespace with
  | Some current => if py_eq current value then dict_del key namespace
                    else namespace
  | None => namespace
  end.

(** Lines 108-115.  The recorded dictionary is a different object from the
    namespace, so the loop runs over the items it had on entry. *)
Definition unload_namespace (namespace : dict) : result dict :=
  match dict_get GHIDRA_BRIDGE_NAMESPACE_TRACK namespace with
  | Some (VDict track) => inr (fold_left unload_item track namespace)
  | Some _ => inl AttributeError
  | None => inl NotProjected
  end.

(** ** State and exceptions *)

(** A computation over a state [S] that returns a value or raises; the state
    reached is kept in both cases, as a Python exception leaves the objects
    mutated so far as they are. *)
Definition M (S A : Type) : Type := S -> result A * S.

Definition ret {S A} (a : A) : M S A := fun s => (inr a, s).

Definition raise {S A} (e : exn) : M S A := fun s => (inl e, s).

Definition bind {S A B} (c : M S A) (k : A -> M S B) : M S B :=
  fun s => match c s with
           | (inl e, s') => (inl e, s')
           | (inr a, s') => k a s'
           end.

Notation "x <- c ;; k" := (bind c (fun x => k))
  (at level 61, c at next level, right associativity).
Notation "c ;; k" := (bind c (fun _ => k))
  (at level 61, right associativity).

(** ** The world around a session *)

(** A reference to a dictionary owned by the caller ([locals()],
    [globals()], ...). *)
Definition loc := nat.

(** The listener calls sent to a remote tool. *)
Inductive RemoteCall : Type :=
| addToolListener (tool listener : nat)
| removeToolListener (tool listener : nat).

(** [heap] holds the caller's dictionaries, [tool_listeners] is the listener
    list kept by the remote tools (pairs of tool and listener), [remote_calls]
    the listener calls sent so far, oldest first, and [next_object] the
    identity of the next object created locally. *)
Record World : Type := {
  heap : loc -> dict;
  tool_listeners : list (nat * nat);
  remote_calls : list RemoteCall;
  next_object : nat
}.

Definition heap_set (l : loc) (d : dict) (h : loc -> dict) : loc -> dict :=
  fun l' => if Nat.eqb l' l then d else h l'.

(** Modelled from the spec: the remote tool belongs to the remote host, not
    to this repository.  Its [addToolListener] registers the listener: it
    puts it on the tool's list. *)
Definition tool_add (tool listener : nat) (w : World) : World :=
  {| heap := heap w;
     tool_listeners := tool_listeners w ++ [(tool, listener)];
     remote_calls := remote_calls w ++ [addToolListener tool listener];
     next_object := next_object w |}.

(** What the remote tool does with a [removeToolListener] is its own matter:
    it answers with the listener list it keeps from then on, or it fails.
    The answer is an argument of the method that sends the call. *)
Inductive RemovalAnswer : Type :=
| Removed (listeners : list (nat * nat))
| RemovalFailed.

(** Sending [tool.removeToolListener(listener)]: the call goes out, then the
    answer of the remote tool decides. *)
Definition tool_remove (tool listener : nat) (answer : RemovalAnswer)
    : M World unit :=
  fun w =>
    let sent := remote_calls w ++ [removeToolListener tool listener] in
    match answer with
    | Removed listeners =>
        (inr tt, {| heap := heap w;
                    tool_listeners := listeners;
                    remote_calls := sent;
                    next_object := next_object w |})
    | RemovalFailed =>
        (inl RemoteError, {| heap := heap w;
                             tool_listeners := tool_listeners w;
                             remote_calls := sent;
                             next_object := next_object w |})
    end.

Module InteractiveListener.

(** [self.tool] and [self.update_list] of lines 61-62, and the identity of
    the object. *)
Record t : Type := {
  tool : nat;
  update_list : list loc;
  id : nat
}.

(** Modelled from the spec: the base class of line 59,
    [remote_main.ghidra.framework.model.ToolListener], is a bridged type
    served by the bridge module, which is not among the sources.  The
    transport lets a local object implement a remote interface, so the class
    statement of lines 59-77 returns and changes nothing. *)
Definition class_statement : M World unit := ret tt.

(** Lines 60-65: a new object, registered against the remote tool. *)
Definition __init__ (tool : nat) : M World t :=
  fun w =>
    let self := {| tool := tool; update_list := []; id := next_object w |} in
    let w := {| heap := heap w; tool_listeners := tool_listeners w;
                remote_calls := remote_calls w;
                next_object := S (next_object w) |} in
    (inr self, tool_add tool (id self) w).

(** Lines 67-69: one [removeToolListener] at each run, with no test of an
    earlier run; [answer] is what the remote tool does with it. *)
Definition __del__ (self : t) (answer : RemovalAnswer) : M World unit :=
  tool_remove (tool self) (id self) answer.

(** Lines 71-72. *)
Definition add_to_update_list (self : t) (namespace : loc) : t :=
  {| tool := tool self; update_list := update_list self ++ [namespace];
     id := id self |}.

End InteractiveListener.

(** Modelled from the spec: [bridge.BridgeClient], the transport handle that
    [from . import bridge] brings in, is not among the sources.  The session
    owns one handle; it is kept here as the parameters it was built with, and
    the module its [remote_import("__main__")] returns is an argument of the
    methods that call it. *)
Record BridgeClient : Type := {
  connect_to_host : option string;
  connect_to_port : option nat;
  loglevel : option nat
}.

Module GhidraBridge.

Record t : Type := {
  bridge : BridgeClient;
  interactive_mode : bool;
  interactive_listener : option InteractiveListener.t;
  namespace : option loc
}.

(** The methods run on the session object and the world. *)
Definition state : Type := (t * World)%type.

Definition self : M state t := fun s => (inr (fst s), s).

Definition world : M state World := fun s => (inr (snd s), s).

Definition in_world {A} (c : M World A) : M state A :=
  fun s => let (r, w) := c (snd s) in (r, (fst s, w)).

Definition set_interactive_listener (l : option InteractiveListener.t)
    : M state unit :=
  fun s => (inr tt, ({| bridge := bridge (fst s);
                        interactive_mode := interactive_mode (fst s);
                        interactive_listener := l;
                        namespace := namespace (fst s) |}, snd s)).

Definition set_namespace (n : option loc) : M state unit :=
  fun s => (inr tt, ({| bridge := bridge (fst s);
                        interactive_mode := interactive_mode (fst s);
                        interactive_listener := interactive_listener (fst s);
                        namespace := n |}, snd s)).

(** Writes dictionary [d] back to the object at [l]. *)
Definition store (l : loc) (d : dict) : M state unit :=
  fun s => (inr tt, (fst s, {| heap := heap_set l d (heap (snd s));
                               tool_listeners := tool_listeners (snd s);
                               remote_calls := remote_calls (snd s);
                               next_object := next_object (snd s) |})).

(** Lines 43-96.  [remote_main] is what line 51 imports; line 79 only reads
    a remote attribute into an unused variable.  The load of lines 86-94
    never raises ([load_namespace_spec]), so the dictionary is written back
    once the loop is over. *)
Definition get_flat_api (remote_main : RemoteMain) (namespace : option loc)
    : M state RemoteMain :=
  me <- self ;;
  (if interactive_mode me then
     match interactive_listener me with
     | None =>
         in_world InteractiveListener.class_statement ;;
         let tool := state_getTool remote_main in
         listener <- in_world (InteractiveListener.__init__ tool) ;;
         set_interactive_listener (Some listener)
     | Some _ => ret tt
     end
   else ret tt) ;;
  match namespace with
  | Some ns =>
      w <- world ;;
      match load_namespace remote_main (heap w ns) with
      | inl e => raise e
      | inr d => store ns d
      end
  | None => ret tt
  end ;;
  ret remote_main.

(** Lines 15-41. *)
Definition __init__ (connect_to_host : option string)
    (connect_to_port : option nat) (loglevel : option nat)
    (namespace : option loc) (interactive_mode : bool)
    (remote_main : RemoteMain) (w : World) : result unit * state :=
  let me := {| bridge := {| connect_to_host := connect_to_host;
                            connect_to_port := connect_to_port;
                            loglevel := loglevel |};
               interactive_mode := interactive_mode;
               interactive_listener := None;
               namespace := None |} in
  match namespace with
  | Some ns =>
      match connect_to_host, connect_to_port with
      | Some _, Some _ =>
          (set_namespace (Some ns) ;;
           get_flat_api remote_main (Some ns) ;;
           ret tt) (me, w)
      | _, _ => raise NoServer (me, w)
      end
  | None => (inr tt, (me, w))
  end.

(** Lines 98-115.  [unload_namespace] raises only before its first [del],
    so a raise leaves the dictionary as it was. *)
Definition unload_flat_api (namespace : option loc) : M state unit :=
  me <- self ;;
  ns <- match namespace with
        | Some ns => ret ns
        | None =>
            match GhidraBridge.namespace me with
            | Some ns => ret ns
            | None => raise NoNamespace
            end
        end ;;
  w <- world ;;
  match unload_namespace (heap w ns) with
  | inl e => raise e
  | inr d => store ns d
  end.

(** Lines 129-130. *)
Definition __enter__ : M state t := self.

(** Lines 132-134. *)
Definition __exit__ : M state unit :=
  me <- self ;;
  match GhidraBridge.namespace me with
  | Some ns => unload_flat_api (Some ns)
  | None => ret tt
  end.

End GhidraBridge.

(** ** Names and records a load works with *)

(** The exposed names that pass the guard of line 90, in their order. *)
Definition projected_names (remote_main : RemoteMain) : list string :=
  filter is_projected (_bridge_attrs remote_main).

(** A list of names without the repetitions: each name stays where it
    first occurs. *)
Fixpoint first_occurrences (l : list string) : list string :=
  match l with
  | [] => []
  | a :: l' =>
      a :: filter (fun b => negb (String.eqb b a)) (first_occurrences l')
  end.

(** The binding a load makes for a name. *)
Definition binding_of (remote_main : RemoteMain) (attr : string)
    : string * value :=
  (attr, getattr remote_main attr).

(** The record of a load: the projected names in order, each with its
    resolved value. *)
Definition record_of (remote_main : RemoteMain) : dict :=
  map (binding_of remote_main) (first_occurrences (projected_names remote_main)).

(** How many registrations were sent to the remote tools. *)
Definition is_registration (c : RemoteCall) : bool :=
  match c with addToolListener _ _ => true | removeToolListener _ _ => false end.

Definition registrations (calls : list RemoteCall) : nat :=
  List.length (filter is_registration calls).

(** How many [removeToolListener] were sent for a listener of a tool. *)
Definition is_removal_of (tool listener : nat) (c : RemoteCall) : bool :=
  match c with
  | removeToolListener t l => Nat.eqb t tool && Nat.eqb l listener
  | addToolListener _ _ => false
  end.

Definition removals_of (tool listener : nat) (calls : list RemoteCall) : nat :=
  List.length (filter (is_removal_of tool listener) calls).

(** ** Induction on values *)

Section ValueInduction.

Variable P : value -> Prop.
Hypothesis HNone : P VNone.
Hypothesis HBool : forall b, P (VBool b).
Hypothesis HInt : forall n, P (VInt n).
Hypothesis HStr : forall s, P (VStr s).
Hypothesis HNaN : forall obj, P (VNaN obj).
Hypothesis HBridged : forall h, P (VBridged h).
Hypothesis HDict :
  forall items, Forall (fun kv => P (snd kv)) items -> P (VDict items).

(** Induction that reaches the values stored inside a dictionary. *)
Fixpoint value_nested_ind (v : value) : P v :=
  match v with
  | VNone => HNone
  | VBool b => HBool b
  | VInt n => HInt n
  | VStr s => HStr s
  | VNaN obj => HNaN obj
  | VBridged h => HBridged h
  | VDict items =>
      HDict items
        ((fix each (l : list (string * value))
            : Forall (fun kv => P (snd kv)) l :=
            match l with
            | [] => Forall_nil _
            | kv :: l' => Forall_cons kv (value_nested_ind (snd kv)) (each l')
            end) items)
  end.

End ValueInduction.

(** ** The record, turn by turn *)

(** What one turn of the loop adds to the record. *)
Definition track_step (remote_main : RemoteMain) (track : dict)
    (attr : string) : dict :=
  if is_projected attr then dict_set attr (getattr remote_main attr) track
  else track.

(** The names of a record after one more name. *)
Definition add_name (names : list string) (a : string) : list string :=
  if str_in a names then names else names ++ [a].

(** ** Concrete inputs *)

(** A remote [__main__] that exposes [foo = 10] and [bar = 20] next to a
    private name and an excluded one. *)
Definition two_names : RemoteMain :=
  {| _bridge_attrs := ["__name__"; "foo"; "bridge"; "bar"];
     getattr := fun attr =>
       if String.eqb attr "foo" then VInt 10
       else if String.eqb attr "bar" then VInt 20
       else VBridged 0;
     state_getTool := 7 |}.

(** The same module once [bar] is gone from it. *)
Definition one_name : RemoteMain :=
  {| _bridge_attrs := ["__name__"; "foo"; "bridge"];
     getattr := getattr two_names;
     state_getTool := 7 |}.

(** The caller's scope [{"x": 1}]. *)
Definition scope_x : dict := [("x", VInt 1)].

(** A scope that already binds [foo]. *)
Definition scope_foo : dict := [("foo", VInt 5)].

(** A world with empty dictionaries everywhere and no remote call yet. *)
Definition empty_world : World :=
  {| heap := fun _ => [];
     tool_listeners := [];
     remote_calls := [];
     next_object := 0 |}.

(** A world where the caller's dictionary at location 3 is [{"x": 1}]. *)
Definition world_x : World :=
  {| heap := heap_set 3 scope_x (fun _ => []);
     tool_listeners := [];
     remote_calls := [];
     next_object := 0 |}.

(** A session object as line 27-33 leave it. *)
Definition fresh_session (interactive_mode : bool) : GhidraBridge.t :=
  {| GhidraBridge.bridge := {| connect_to_host := Some "127.0.0.1";
                               connect_to_port := Some 4768;
                               loglevel := None |};
     GhidraBridge.interactive_mode := interactive_mode;
     GhidraBridge.interactive_listener := None;
     GhidraBridge.namespace := None |}.

(** A session built on the dictionary at location 3 of [world_x]. *)
Definition session_x : result unit * GhidraBridge.state :=
  GhidraBridge.__init__ (Some "127.0.0.1") (Some 4768) None (Some 3) true
                        two_names world_x.

(** ** The caller's own steps *)

(** What the caller does to a namespace between two calls of the bridge:
    [namespace[name] = v] or [del namespace[name]]. *)
Inductive caller_op : Type :=
| Rebind (name : string) (v : value)
| Unbind (name : string).

Definition op_name (o : caller_op) : string :=
  match o with Rebind n _ => n | Unbind n => n end.

Definition caller_step (namespace : dict) (o : caller_op) : dict :=
  match o with
  | Rebind n v => dict_set n v namespace
  | Unbind n => dict_del n namespace
  end.

Definition caller_steps (ops : list caller_op) (namespace : dict) : dict :=
  fold_left caller_step ops namespace.

(** The caller working on the dictionary at [l]. *)
Definition caller_edits (l : loc) (ops : list caller_op) (w : World) : World :=
  {| heap := heap_set l (caller_steps ops (heap w l)) (heap w);
     tool_listeners := tool_listeners w;
     remote_calls := remote_calls w;
     next_object := next_object w |}.

(** A run of [get_flat_api] calls on one session, each with the module its
    import returns and its [namespace] argument. *)
Fixpoint get_flat_api_calls (calls : list (RemoteMain * option loc))
    (s : GhidraBridge.state) : GhidraBridge.state :=
  match calls with
  | [] => s
  | (remote_main, namespace) :: calls' =>
      get_flat_api_calls calls'
        (snd (GhidraBridge.get_flat_api remote_main namespace s))
  end.

(** The dictionary [unload_flat_api] works on, lines 102-106. *)
Definition unload_target (me : GhidraBridge.t) (namespace : option loc)
    : option loc :=
  match namespace with
  | Some l => Some l
  | None => GhidraBridge.namespace me
  end.

(** A remote [__main__] that exposes [ratio = nan] and [foo = 10]. *)
Definition nan_remote : RemoteMain :=
  {| _bridge_attrs := ["ratio"; "foo"];
     getattr := fun attr =>
       if String.eqb attr "ratio" then VNaN 0 else VInt 10;
     state_getTool := 7 |}.

(** A remote [__main__] that exposes [flag = 1]. *)
Definition flag_remote : RemoteMain :=
  {| _bridge_attrs := ["flag"];
     getattr := fun _ => VInt 1;
     state_getTool := 7 |}.

(** A session bound to the dictionary at location 3, before any load. *)
Definition bound_session : GhidraBridge.t :=
  {| GhidraBridge.bridge := {| connect_to_host := Some "127.0.0.1";
                               connect_to_port := Some 4768;
                               loglevel := None |};
     GhidraBridge.interactive_mode := false;
     GhidraBridge.interactive_listener := None;
     GhidraBridge.namespace := Some 3 |}.

(** * Properties *)

(** ** Dictionaries *)

(** Case analysis on the comparison of two keys. *)
Ltac key_cases k k' :=
  destruct (String.eqb_spec k k') as [->|?]; simpl; try congruence; auto.

Lemma dict_get_set_same (k : string) (v : value) (d : dict) :
  dict_get k (dict_set k v d) = Some v.
Proof.
  induction d as [|[k' v'] d IH]; simpl.
  - now rewrite String.eqb_refl.
  - destruct (String.eqb k k') eqn:E; simpl; rewrite E; auto.
Qed.

Lemma dict_get_set_other (k k' : string) (v : value) (d : dict) :
  k <> k' -> dict_get k' (dict_set k v d) = dict_get k' d.
Proof.
  intros Hne. induction d as [|[k0 v0] d IH]; simpl.
  - key_cases k' k.
  - key_cases k k0; [key_cases k' k0 | now rewrite IH].
Qed.

Lemma dict_get_del_same (k : string) (d : dict) :
  dict_get k (dict_del k d) = None.
Proof.
  induction d as [|[k' v'] d IH]; simpl; auto.
  destruct (String.eqb k k') eqn:E; simpl; auto. now rewrite E.
Qed.

Lemma dict_get_del_other (k k' : string) (d : dict) :
  k <> k' -> dict_get k' (dict_del k d) = dict_get k' d.
Proof.
  intros Hne. induction d as [|[k0 v0] d IH]; simpl; auto.
  key_cases k k0; [key_cases k' k0 | now rewrite IH].
Qed.

Lemma dict_contains_get (k : string) (d : dict) :
  dict_contains k d = true <-> dict_get k d <> None.
Proof.
  induction d as [|[k' v'] d IH]; simpl.
  - split; [discriminate | congruence].
  - key_cases k k'. split; [discriminate | auto].
Qed.

Lemma dict_get_In (k : string) (v : value) (d : dict) :
  dict_get k d = Some v -> In (k, v) d.
Proof.
  induction d as [|[k' v'] d IH]; simpl; [discriminate|].
  key_cases k k'. intros [= ->]. now left.
Qed.

Lemma dict_get_None_keys (k : string) (d : dict) :
  dict_get k d = None <-> ~ In k (dict_keys d).
Proof.
  induction d as [|[k' v'] d IH]; simpl; [tauto|].
  key_cases k k'.
  - split; [discriminate | intros H; exfalso; auto].
  - rewrite IH. intuition congruence.
Qed.

Lemma dict_get_of_In (d : dict) (k : string) (v : value) :
  NoDup (dict_keys d) -> In (k, v) d -> dict_get k d = Some v.
Proof.
  induction d as [|[k' v'] d IH]; simpl; intros Hnd Hin; [destruct Hin|].
  inversion Hnd as [|? ? Hnotin Hnd']; subst.
  destruct Hin as [[= -> ->] | Hin].
  - now rewrite String.eqb_refl.
  - key_cases k k'. exfalso. apply Hnotin.
    change k' with (fst (k', v)). now apply in_map.
Qed.

Lemma dict_keys_del (k : string) (d : dict) :
  dict_keys (dict_del k d) =
  filter (fun b => negb (String.eqb k b)) (dict_keys d).
Proof.
  induction d as [|[k' v'] d IH]; simpl; auto.
  destruct (String.eqb k k'); simpl; now rewrite IH.
Qed.

(** The dictionary operations keep the keys unique. *)
Lemma dict_del_NoDup (k : string) (d : dict) :
  NoDup (dict_keys d) -> NoDup (dict_keys (dict_del k d)).
Proof. intros H. rewrite dict_keys_del. now apply NoDup_filter. Qed.

Lemma dict_keys_set (k : string) (v : value) (d : dict) :
  dict_keys (dict_set k v d) =
  if dict_contains k d then dict_keys d else dict_keys d ++ [k].
Proof.
  induction d as [|[k' v'] d IH]; simpl; auto.
  destruct (String.eqb k k'); simpl; auto.
  rewrite IH. now destruct (dict_contains k d).
Qed.

Lemma dict_set_NoDup (k : string) (v : value) (d : dict) :
  NoDup (dict_keys d) -> NoDup (dict_keys (dict_set k v d)).
Proof.
  induction d as [|[k' v'] d IH]; simpl; intros H.
  - constructor; [intros [] | constructor].
  - destruct (String.eqb k k') eqn:E; simpl; auto.
    inversion H as [|? ? Hnotin Hnd]; subst.
    constructor; [|now apply IH].
    fold (dict_keys (dict_set k v d)). rewrite dict_keys_set.
    destruct (dict_contains k d); auto.
    rewrite in_app_iff. intros [Hin | [Hin | []]]; auto.
    apply String.eqb_neq in E. congruence.
Qed.

(** ** Equality of values *)

(** As an item of a dictionary, every value is equal to itself. *)
Lemma item_eq_refl (v : value) : same_object v v || py_eq v v = true.
Proof.
  induction v as [| b | n | s | obj | h | items IH] using value_nested_ind;
    simpl.
  - reflexivity.
  - now destruct b.
  - apply Z.eqb_refl.
  - apply String.eqb_refl.
  - now rewrite Nat.eqb_refl.
  - apply Nat.eqb_refl.
  - rewrite Nat.eqb_refl. simpl.
    apply forallb_forall. intros kv Hin.
    apply existsb_exists. exists kv. split; auto.
    rewrite String.eqb_refl. simpl.
    rewrite Forall_forall in IH. now apply IH.
Qed.

(** Every value but a [nan] is [==] to itself. *)
Lemma py_eq_refl (v : value) :
  (forall obj, v <> VNaN obj) -> py_eq v v = true.
Proof.
  intros Hnan. pose proof (item_eq_refl v) as H.
  destruct v; try exact H. now destruct (Hnan obj).
Qed.

Lemma value_size_item (items : dict) (k : string) (v : value) :
  In (k, v) items -> value_size v < value_size (VDict items).
Proof.
  simpl. induction items as [|[k' v'] items IH]; simpl; intros Hin.
  - destruct Hin.
  - destruct Hin as [[= -> ->] | Hin]; [lia|].
    specialize (IH Hin). lia.
Qed.

(** A dictionary is not [==] to a value stored in it. *)
Lemma py_eq_not_item (n : nat) :
  forall (v : value) (items : dict) (k : string),
    value_size v < n -> In (k, v) items -> py_eq (VDict items) v = false.
Proof.
  induction n as [|n IH]; intros v items k Hsize Hin; [lia|].
  destruct v as [| | | | | |items']; try reflexivity.
  destruct (py_eq (VDict items) (VDict items')) eqn:Heq; auto.
  simpl in Heq. apply andb_true_iff in Heq. destruct Heq as [_ Hall].
  rewrite forallb_forall in Hall. specialize (Hall _ Hin).
  apply existsb_exists in Hall. destruct Hall as ([k2 v2] & Hin2 & H2).
  apply andb_true_iff in H2. destruct H2 as [_ H2]. cbn [fst snd] in H2.
  pose proof (value_size_item items' k2 v2 Hin2) as Hlt.
  rewrite (IH v2 items' k2) in H2 by (auto; lia).
  now rewrite orb_false_r in H2.
Qed.

(** ** Loading *)

Lemma sentinel_not_projected (attr : string) :
  is_projected attr = true -> attr <> GHIDRA_BRIDGE_NAMESPACE_TRACK.
Proof. intros H ->. discriminate H. Qed.

Lemma projected_names_In (remote_main : RemoteMain) (attr : string) :
  In attr (projected_names remote_main) <->
  In attr (_bridge_attrs remote_main) /\ is_projected attr = true.
Proof. unfold projected_names. apply filter_In. Qed.

Lemma load_attrs_spec (remote_main : RemoteMain) (attrs : list string) :
  forall (namespace track : dict),
    dict_get GHIDRA_BRIDGE_NAMESPACE_TRACK namespace = Some (VDict track) ->
    exists namespace',
      load_attrs remote_main attrs namespace = inr namespace'
      /\ dict_get GHIDRA_BRIDGE_NAMESPACE_TRACK namespace'
         = Some (VDict (fold_left (track_step remote_main) attrs track))
      /\ (forall k, In k (filter is_projected attrs) ->
                    dict_get k namespace' = Some (getattr remote_main k))
      /\ (forall k, ~ In k (filter is_projected attrs) ->
                    k <> GHIDRA_BRIDGE_NAMESPACE_TRACK ->
                    dict_get k namespace' = dict_get k namespace).
Proof.
  induction attrs as [|a attrs IH]; intros namespace track Htrack; simpl.
  - exists namespace. repeat split; auto. intros k [].
  - unfold load_attr, track_step at 2.
    destruct (is_projected a) eqn:Hp.
    + pose proof (sentinel_not_projected a Hp) as Hne.
      rewrite dict_get_set_other by exact Hne. rewrite Htrack.
      set (namespace1 := dict_set GHIDRA_BRIDGE_NAMESPACE_TRACK _ _).
      destruct (IH namespace1 (dict_set a (getattr remote_main a) track))
        as (namespace' & Hrun & Hrec & Hin & Hout).
      { unfold namespace1. apply dict_get_set_same. }
      exists namespace'. split; [exact Hrun|]. split; [exact Hrec|]. split.
      * intros k [<- | Hk]; [|now apply Hin].
        destruct (in_dec string_dec a (filter is_projected attrs)) as [Hi|Hi].
        -- now apply Hin.
        -- rewrite Hout by assumption. unfold namespace1.
           rewrite dict_get_set_other by congruence.
           apply dict_get_set_same.
      * intros k Hk Hks.
        assert (a <> k) as Hak by (intros ->; apply Hk; now left).
        rewrite Hout; [| intros Hi; apply Hk; now right | exact Hks].
        unfold namespace1.
        rewrite dict_get_set_other by congruence.
        now apply dict_get_set_other.
    + destruct (IH namespace track Htrack)
        as (namespace' & Hrun & Hrec & Hin & Hout).
      exists namespace'. auto.
Qed.

(** A load never raises. *)
Lemma load_namespace_spec (remote_main : RemoteMain) (namespace : dict) :
  exists namespace',
    load_namespace remote_main namespace = inr namespace'
    /\ dict_get GHIDRA_BRIDGE_NAMESPACE_TRACK namespace'
       = Some (VDict (fold_left (track_step remote_main)
                                (_bridge_attrs remote_main) []))
    /\ (forall k, In k (projected_names remote_main) ->
                  dict_get k namespace' = Some (getattr remote_main k))
    /\ (forall k, ~ In k (projected_names remote_main) ->
                  k <> GHIDRA_BRIDGE_NAMESPACE_TRACK ->
                  dict_get k namespace' = dict_get k namespace).
Proof.
  unfold load_namespace, projected_names.
  destruct (load_attrs_spec remote_main (_bridge_attrs remote_main)
              (dict_set GHIDRA_BRIDGE_NAMESPACE_TRACK (VDict []) namespace) [])
    as (namespace' & Hrun & Hrec & Hin & Hout).
  { apply dict_get_set_same. }
  exists namespace'. repeat split; auto.
  intros k Hk Hks. rewrite Hout by assumption.
  apply dict_get_set_other. congruence.
Qed.

(** Loading keeps the keys of a namespace unique. *)
Lemma load_namespace_NoDup (remote_main : RemoteMain)
    (namespace loaded : dict) :
  NoDup (dict_keys namespace) ->
  load_namespace remote_main namespace = inr loaded ->
  NoDup (dict_keys loaded).
Proof.
  unfold load_namespace. intros Hnd.
  apply (dict_set_NoDup GHIDRA_BRIDGE_NAMESPACE_TRACK (VDict [])) in Hnd.
  revert Hnd. generalize (dict_set GHIDRA_BRIDGE_NAMESPACE_TRACK (VDict [])
                                   namespace).
  induction (_bridge_attrs remote_main) as [|a attrs IH];
    intros ns Hnd Hrun; simpl in Hrun.
  - now injection Hrun as <-.
  - unfold load_attr in Hrun. destruct (is_projected a); [|eauto].
    destruct (dict_get _ _) as [[| | | | | |track]|]; try discriminate.
    apply (IH _ (dict_set_NoDup _ _ _ (dict_set_NoDup _ _ _ Hnd)) Hrun).
Qed.

(** ** The record in closed form *)

Lemma dict_set_binding (remote_main : RemoteMain) (a : string)
    (names : list string) :
  dict_set a (getattr remote_main a) (map (binding_of remote_main) names)
  = map (binding_of remote_main) (add_name names a).
Proof.
  unfold add_name, str_in.
  induction names as [|b names IH]; simpl; auto.
  destruct (String.eqb a b) eqn:E; simpl.
  - apply String.eqb_eq in E. now subst b.
  - rewrite IH. now destruct (existsb (String.eqb a) names).
Qed.

Lemma filter_twice {A} (p q : A -> bool) (l : list A) :
  filter p (filter q l) = filter (fun x => p x && q x) l.
Proof.
  induction l as [|x l IH]; simpl; auto.
  destruct (q x); simpl.
  - rewrite andb_true_r. destruct (p x); now rewrite IH.
  - now rewrite andb_false_r.
Qed.

Lemma add_names_first_occurrences (l : list string) :
  forall names,
    fold_left add_name l names
    = names ++ filter (fun b => negb (str_in b names)) (first_occurrences l).
Proof.
  induction l as [|a l IH]; intros names; simpl.
  - now rewrite app_nil_r.
  - rewrite IH. unfold add_name.
    destruct (str_in a names) eqn:E; simpl.
    + f_equal. rewrite filter_twice. apply filter_ext. intros b.
      destruct (String.eqb b a) eqn:Eb; simpl.
      * apply String.eqb_eq in Eb. subst b. rewrite E. reflexivity.
      * now rewrite andb_true_r.
    + rewrite <- app_assoc. simpl. do 2 f_equal.
      rewrite filter_twice. apply filter_ext. intros b.
      unfold str_in. rewrite existsb_app. simpl. rewrite orb_false_r.
      now rewrite negb_orb.
Qed.

Lemma track_steps_record (remote_main : RemoteMain) :
  fold_left (track_step remote_main) (_bridge_attrs remote_main) []
  = record_of remote_main.
Proof.
  unfold record_of, projected_names.
  assert (forall attrs names,
    fold_left (track_step remote_main) attrs (map (binding_of remote_main) names)
    = map (binding_of remote_main)
          (fold_left add_name (filter is_projected attrs) names)) as H.
  { induction attrs as [|a attrs IH]; intros names; simpl; auto.
    unfold track_step at 2. destruct (is_projected a); simpl; auto.
    rewrite dict_set_binding. apply IH. }
  rewrite (H _ []). rewrite add_names_first_occurrences. simpl.
  f_equal. induction (first_occurrences _) as [|x l IH]; simpl; congruence.
Qed.

Lemma first_occurrences_In (l : list string) (a : string) :
  In a (first_occurrences l) <-> In a l.
Proof.
  induction l as [|b l IH]; simpl; [tauto|].
  rewrite filter_In, IH. split.
  - intros [H | [H _]]; auto.
  - intros [H | H]; auto.
    destruct (string_dec b a) as [Heq | Hne]; auto.
    right. split; auto.
    apply negb_true_iff, String.eqb_neq. congruence.
Qed.

Lemma first_occurrences_NoDup (l : list string) :
  NoDup (first_occurrences l).
Proof.
  induction l as [|b l IH]; simpl; constructor.
  - rewrite filter_In. intros [_ H].
    now rewrite String.eqb_refl in H.
  - now apply NoDup_filter.
Qed.

Lemma first_occurrences_id (l : list string) :
  NoDup l -> first_occurrences l = l.
Proof.
  induction 1 as [|a l Hnotin Hnd IH]; simpl; auto.
  rewrite IH. f_equal.
  apply forallb_filter_id, forallb_forall. intros b Hb.
  apply negb_true_iff, String.eqb_neq. congruence.
Qed.

Lemma record_of_In (remote_main : RemoteMain) (k : string) (v : value) :
  In (k, v) (record_of remote_main) <->
  In k (projected_names remote_main) /\ v = getattr remote_main k.
Proof.
  unfold record_of. rewrite in_map_iff. unfold binding_of. split.
  - intros (a & [= <- <-] & Ha). now rewrite first_occurrences_In in Ha.
  - intros [Hk ->]. exists k. now rewrite first_occurrences_In.
Qed.

Lemma record_of_keys (remote_main : RemoteMain) :
  dict_keys (record_of remote_main)
  = first_occurrences (projected_names remote_main).
Proof.
  unfold record_of, dict_keys. rewrite map_map. simpl. apply map_id.
Qed.

Lemma record_of_get (remote_main : RemoteMain) (k : string) :
  In k (projected_names remote_main) ->
  dict_get k (record_of remote_main) = Some (getattr remote_main k).
Proof.
  intros Hk. apply dict_get_of_In.
  - rewrite record_of_keys. apply first_occurrences_NoDup.
  - now apply record_of_In.
Qed.

(** A load leaves the sentinel bound to the record of that load, whatever
    the namespace held before. *)
Lemma load_namespace_record (remote_main : RemoteMain) (namespace : dict) :
  exists loaded,
    load_namespace remote_main namespace = inr loaded
    /\ dict_get GHIDRA_BRIDGE_NAMESPACE_TRACK loaded
       = Some (VDict (record_of remote_main))
    /\ (forall k, In k (projected_names remote_main) ->
                  dict_get k loaded = Some (getattr remote_main k))
    /\ (forall k, ~ In k (projected_names remote_main) ->
                  k <> GHIDRA_BRIDGE_NAMESPACE_TRACK ->
                  dict_get k loaded = dict_get k namespace).
Proof.
  destruct (load_namespace_spec remote_main namespace)
    as (loaded & Hrun & Hrec & Hin & Hout).
  exists loaded. rewrite track_steps_record in Hrec. auto.
Qed.

(** ** Unloading *)

Lemma unload_item_get (namespace : dict) (key : string) (recorded : value)
    (k : string) :
  dict_get k (unload_item namespace (key, recorded)) = dict_get k namespace
  \/ (k = key
      /\ dict_get k (unload_item namespace (key, recorded)) = None
      /\ exists current, dict_get k namespace = Some current
                         /\ py_eq current recorded = true).
Proof.
  unfold unload_item.
  destruct (dict_get key namespace) as [current|] eqn:Hget; auto.
  destruct (py_eq current recorded) eqn:Heq; auto.
  destruct (string_dec key k) as [<- | Hne].
  - right. rewrite dict_get_del_same. eauto.
  - left. now apply dict_get_del_other.
Qed.

(** A name is either left as it was, or it was bound to a value equal to
    one recorded for it and is now unbound. *)
Lemma unload_items_get (track : dict) :
  forall (namespace : dict) (k : string),
    dict_get k (fold_left unload_item track namespace) = dict_get k namespace
    \/ (dict_get k (fold_left unload_item track namespace) = None
        /\ exists current recorded,
             dict_get k namespace = Some current
             /\ In (k, recorded) track
             /\ py_eq current recorded = true).
Proof.
  induction track as [|[key recorded] track IH]; intros namespace k;
    cbn [fold_left]; auto.
  destruct (IH (unload_item namespace (key, recorded)) k)
    as [Hsame | (Hnone & cur & rec & Hcur & Hin & Heq)];
    destruct (unload_item_get namespace key recorded k)
      as [Hstep | (-> & Hgone & cur' & Hcur' & Heq')].
  - left. congruence.
  - right. split; [congruence|]. exists cur', recorded.
    repeat split; auto. now left.
  - right. split; [exact Hnone|]. exists cur, rec.
    rewrite <- Hstep. repeat split; auto. now right.
  - congruence.
Qed.

Lemma unload_items_unbound (track : dict) :
  forall (namespace : dict) (k : string),
    dict_get k namespace = None ->
    dict_get k (fold_left unload_item track namespace) = None.
Proof.
  intros namespace k Hnone.
  destruct (unload_items_get track namespace k) as [H | [H _]]; congruence.
Qed.

(** A name recorded with a value equal to its current one is unbound. *)
Lemma unload_items_removes (track : dict) :
  forall (namespace : dict) (k : string) (current recorded : value),
    In (k, recorded) track ->
    dict_get k namespace = Some current ->
    py_eq current recorded = true ->
    dict_get k (fold_left unload_item track namespace) = None.
Proof.
  induction track as [|[key rec] track IH];
    intros namespace k current recorded Hin Hcur Heq; cbn [fold_left].
  - destruct Hin.
  - destruct Hin as [[= -> ->] | Hin].
    + apply unload_items_unbound. unfold unload_item.
      rewrite Hcur, Heq. apply dict_get_del_same.
    + destruct (unload_item_get namespace key rec k)
        as [Hstep | (_ & Hgone & _)].
      * apply (IH _ k current recorded); congruence.
      * now apply unload_items_unbound.
Qed.

(** A name bound to a value that differs from all that is recorded for it
    keeps its binding. *)
Lemma unload_items_keeps (track namespace : dict) (k : string)
    (current : value) :
  dict_get k namespace = Some current ->
  (forall recorded, In (k, recorded) track -> py_eq current recorded = false) ->
  dict_get k (fold_left unload_item track namespace) = Some current.
Proof.
  intros Hcur Hdiff.
  destruct (unload_items_get track namespace k)
    as [H | (_ & cur & rec & Hcur' & Hin & Heq)]; [congruence|].
  rewrite Hcur in Hcur'. injection Hcur' as <-.
  rewrite (Hdiff rec Hin) in Heq. discriminate.
Qed.

(** The sentinel stays, with its record. *)
Lemma unload_namespace_sentinel (namespace track : dict) :
  dict_get GHIDRA_BRIDGE_NAMESPACE_TRACK namespace = Some (VDict track) ->
  exists namespace',
    unload_namespace namespace = inr namespace'
    /\ dict_get GHIDRA_BRIDGE_NAMESPACE_TRACK namespace' = Some (VDict track).
Proof.
  intros Htrack. unfold unload_namespace. rewrite Htrack.
  eexists. split; [reflexivity|].
  apply unload_items_keeps; auto.
  intros recorded Hin.
  apply (py_eq_not_item (S (value_size recorded)) recorded track
                        GHIDRA_BRIDGE_NAMESPACE_TRACK); auto.
Qed.

Lemma unload_namespace_ok (namespace unloaded : dict) :
  unload_namespace namespace = inr unloaded ->
  exists track,
    dict_get GHIDRA_BRIDGE_NAMESPACE_TRACK namespace = Some (VDict track)
    /\ dict_get GHIDRA_BRIDGE_NAMESPACE_TRACK unloaded = Some (VDict track).
Proof.
  intros Hun.
  destruct (dict_get GHIDRA_BRIDGE_NAMESPACE_TRACK namespace) as [v|] eqn:E;
    [|unfold unload_namespace in Hun; rewrite E in Hun; discriminate].
  destruct v as [| | | | | |track];
    try (unfold unload_namespace in Hun; rewrite E in Hun; discriminate).
  exists track. split; [reflexivity|].
  destruct (unload_namespace_sentinel namespace track E) as (d & Hd & Hget).
  congruence.
Qed.

(** Unloading keeps the keys of a namespace unique. *)
Lemma unload_namespace_NoDup (namespace unloaded : dict) :
  NoDup (dict_keys namespace) ->
  unload_namespace namespace = inr unloaded ->
  NoDup (dict_keys unloaded).
Proof.
  unfold unload_namespace.
  destruct (dict_get _ _) as [[| | | | | |track]|]; try discriminate.
  intros Hnd [= <-]. revert namespace Hnd.
  induction track as [|[key recorded] track IH]; intros namespace Hnd;
    cbn [fold_left]; auto.
  apply IH. unfold unload_item.
  destruct (dict_get key namespace) as [current|]; auto.
  destruct (py_eq current recorded); auto.
  now apply dict_del_NoDup.
Qed.

(** An unload right after a load unbinds every projected name whose value
    is [==] to itself and leaves the unprojected names and the sentinel
    alone. *)
Lemma unload_after_load (remote_main : RemoteMain) (loaded : dict) :
  dict_get GHIDRA_BRIDGE_NAMESPACE_TRACK loaded
    = Some (VDict (record_of remote_main)) ->
  (forall k, In k (projected_names remote_main) ->
             dict_get k loaded = Some (getattr remote_main k)) ->
  exists unloaded,
    unload_namespace loaded = inr unloaded
    /\ (forall k, In k (projected_names remote_main) ->
                  py_eq (getattr remote_main k) (getattr remote_main k) = true ->
                  dict_get k unloaded = None)
    /\ (forall k, In k (projected_names remote_main) ->
                  py_eq (getattr remote_main k) (getattr remote_main k) = false ->
                  dict_get k unloaded = Some (getattr remote_main k))
    /\ (forall k, ~ In k (projected_names remote_main) ->
                  dict_get k unloaded = dict_get k loaded).
Proof.
  intros Hrec Hbound. unfold unload_namespace. rewrite Hrec.
  eexists. split; [reflexivity|]. split; [|split].
  - intros k Hk Hself.
    apply (unload_items_removes _ _ k (getattr remote_main k)
                                (getattr remote_main k)); auto.
    now apply record_of_In.
  - intros k Hk Hself. apply unload_items_keeps; auto.
    intros recorded Hin. apply record_of_In in Hin.
    destruct Hin as [_ ->]. exact Hself.
  - intros k Hk.
    destruct (unload_items_get (record_of remote_main) loaded k)
      as [H | (_ & cur & rec & _ & Hin & _)]; auto.
    apply record_of_In in Hin. tauto.
Qed.

(** ** The session *)

Lemma heap_set_same (l : loc) (d : dict) (h : loc -> dict) :
  heap_set l d h l = d.
Proof. unfold heap_set. now rewrite Nat.eqb_refl. Qed.

Lemma heap_set_other (l l' : loc) (d : dict) (h : loc -> dict) :
  l' <> l -> heap_set l d h l' = h l'.
Proof.
  intros Hne. unfold heap_set.
  destruct (Nat.eqb l' l) eqn:E; auto. apply Nat.eqb_eq in E. congruence.
Qed.

(** The part of [get_flat_api] that loads, on its own. *)
Lemma get_flat_api_plain (me : GhidraBridge.t) (w : World)
    (remote_main : RemoteMain) (namespace : option loc) :
  (GhidraBridge.interactive_mode me = false
   \/ GhidraBridge.interactive_listener me <> None) ->
  exists w',
    GhidraBridge.get_flat_api remote_main namespace (me, w)
      = (inr remote_main, (me, w'))
    /\ tool_listeners w' = tool_listeners w
    /\ remote_calls w' = remote_calls w
    /\ next_object w' = next_object w
    /\ match namespace with
       | Some l => load_namespace remote_main (heap w l) = inr (heap w' l)
                   /\ forall l', l' <> l -> heap w' l' = heap w l'
       | None => w' = w
       end.
Proof.
  intros Hmode.
  unfold GhidraBridge.get_flat_api, bind, GhidraBridge.self. cbn [fst snd].
  assert ((if GhidraBridge.interactive_mode me
           then match GhidraBridge.interactive_listener me with
                | None =>
                    bind (GhidraBridge.in_world
                            InteractiveListener.class_statement)
                         (fun _ =>
                            bind (GhidraBridge.in_world
                                    (InteractiveListener.__init__
                                       (state_getTool remote_main)))
                                 (fun listener =>
                                    GhidraBridge.set_interactive_listener
                                      (Some listener)))
                | Some _ => ret tt
                end
           else ret tt) (me, w) = (inr tt, (me, w))) as Hskip.
  { destruct Hmode as [-> | Hsome]; [reflexivity|].
    destruct (GhidraBridge.interactive_mode me); [|reflexivity].
    destruct (GhidraBridge.interactive_listener me); [reflexivity|].
    now destruct Hsome. }
  unfold bind in Hskip. rewrite Hskip.
  destruct namespace as [l|].
  - unfold GhidraBridge.world. cbn [fst snd].
    destruct (load_namespace_record remote_main (heap w l))
      as (loaded & Hload & _).
    rewrite Hload. unfold GhidraBridge.store, ret. cbn [fst snd].
    eexists. split; [reflexivity|]. cbn.
    repeat split; auto.
    + now rewrite heap_set_same.
    + intros l' Hne. now apply heap_set_other.
  - exists w. unfold ret. repeat split.
Qed.

(** [get_flat_api] on a session in interactive mode that has no listener
    yet. *)
Lemma get_flat_api_first (me : GhidraBridge.t) (w : World)
    (remote_main : RemoteMain) (namespace : option loc) :
  GhidraBridge.interactive_mode me = true ->
  GhidraBridge.interactive_listener me = None ->
  exists me' w' listener,
    GhidraBridge.get_flat_api remote_main namespace (me, w)
      = (inr remote_main, (me', w'))
    /\ listener = {| InteractiveListener.tool := state_getTool remote_main;
                     InteractiveListener.update_list := [];
                     InteractiveListener.id := next_object w |}
    /\ GhidraBridge.interactive_listener me' = Some listener
    /\ GhidraBridge.interactive_mode me' = true
    /\ GhidraBridge.bridge me' = GhidraBridge.bridge me
    /\ GhidraBridge.namespace me' = GhidraBridge.namespace me
    /\ tool_listeners w'
       = tool_listeners w ++ [(state_getTool remote_main, next_object w)]
    /\ remote_calls w'
       = remote_calls w
         ++ [addToolListener (state_getTool remote_main) (next_object w)]
    /\ match namespace with
       | Some l => load_namespace remote_main (heap w l) = inr (heap w' l)
                   /\ forall l', l' <> l -> heap w' l' = heap w l'
       | None => heap w' = heap w
       end.
Proof.
  intros Hmode Hnone.
  unfold GhidraBridge.get_flat_api, bind, GhidraBridge.self. cbn [fst snd].
  rewrite Hmode, Hnone.
  unfold GhidraBridge.in_world, InteractiveListener.class_statement,
    InteractiveListener.__init__, GhidraBridge.set_interactive_listener, ret.
  cbn [fst snd].
  destruct namespace as [l|].
  - unfold GhidraBridge.world. cbn [fst snd heap tool_add].
    destruct (load_namespace_record remote_main (heap w l))
      as (loaded & Hload & _).
    rewrite Hload. unfold GhidraBridge.store, ret. cbn [fst snd].
    do 3 eexists. split; [reflexivity|]. cbn. rewrite Hmode.
    repeat split; auto.
    + now rewrite heap_set_same.
    + intros l' Hne. now apply heap_set_other.
  - unfold ret. do 3 eexists. split; [reflexivity|]. cbn. rewrite Hmode.
    repeat split; auto.
Qed.

(** [unload_flat_api] on the dictionary at [l]. *)
Lemma unload_flat_api_run (me : GhidraBridge.t) (w : World) (l : loc)
    (namespace : option loc) :
  namespace = Some l
  \/ (namespace = None /\ GhidraBridge.namespace me = Some l) ->
  GhidraBridge.unload_flat_api namespace (me, w)
  = match unload_namespace (heap w l) with
    | inl e => (inl e, (me, w))
    | inr d => (inr tt, (me, {| heap := heap_set l d (heap w);
                                tool_listeners := tool_listeners w;
                                remote_calls := remote_calls w;
                                next_object := next_object w |}))
    end.
Proof.
  intros [-> | [-> Hns]];
    unfold GhidraBridge.unload_flat_api, bind, GhidraBridge.self,
      GhidraBridge.world, ret; cbn [fst snd]; try rewrite Hns;
    cbn [fst snd]; now destruct (unload_namespace (heap w l)).
Qed.

Lemma exit_run (me : GhidraBridge.t) (w : World) (l : loc) :
  GhidraBridge.namespace me = Some l ->
  GhidraBridge.__exit__ (me, w) = GhidraBridge.unload_flat_api (Some l) (me, w).
Proof.
  intros Hns. unfold GhidraBridge.__exit__, bind, GhidraBridge.self.
  cbn [fst snd]. now rewrite Hns.
Qed.

(** The scoped use of the specification, run: build the session on
    [{"x": 1}], unload by hand, leave the block. *)
Example scoped_use_runs :
  fst session_x = inr tt
  /\ (let manual := GhidraBridge.unload_flat_api None (snd session_x) in
      fst manual = inr tt
      /\ fst (GhidraBridge.__exit__ (snd manual)) = inr tt
      /\ heap (snd (snd (GhidraBridge.__exit__ (snd manual)))) 3
         = [("x", VInt 1);
            (GHIDRA_BRIDGE_NAMESPACE_TRACK,
             VDict [("foo", VInt 10); ("bar", VInt 20)])]).
Proof. repeat split. Qed.

(** * The claims *)

(** C1. After a load, when the caller rebinds a projected name to a value
    that is not [==] to the recorded one, the unload leaves that name bound
    to the caller's value; and every name the unload does remove was bound
    to a value [==] to the one recorded for it. *)
Theorem unload_keeps_rebound_name (remote_main : RemoteMain)
    (namespace : dict) (name : string) (new_value : value) :
  In name (projected_names remote_main) ->
  py_eq new_value (getattr remote_main name) = false ->
  exists loaded track unloaded,
    load_namespace remote_main namespace = inr loaded
    /\ dict_get GHIDRA_BRIDGE_NAMESPACE_TRACK loaded = Some (VDict track)
    /\ dict_get name track = Some (getattr remote_main name)
    /\ unload_namespace (dict_set name new_value loaded) = inr unloaded
    /\ dict_get name unloaded = Some new_value
    /\ forall k,
         dict_get k unloaded <> dict_get k (dict_set name new_value loaded) ->
         dict_get k unloaded = None
         /\ exists current recorded,
              dict_get k (dict_set name new_value loaded) = Some current
              /\ dict_get k track = Some recorded
              /\ py_eq current recorded = true.
Proof.
  intros Hname Hdiff.
  destruct (load_namespace_record remote_main namespace)
    as (loaded & Hload & Hrec & Hin & _).
  assert (name <> GHIDRA_BRIDGE_NAMESPACE_TRACK) as Hne.
  { apply sentinel_not_projected. now apply projected_names_In in Hname. }
  exists loaded, (record_of remote_main).
  exists (fold_left unload_item (record_of remote_main)
                    (dict_set name new_value loaded)).
  split; [exact Hload|]. split; [exact Hrec|].
  split; [now apply record_of_get|]. split.
  { unfold unload_namespace.
    rewrite dict_get_set_other by exact Hne. now rewrite Hrec. }
  split.
  - apply unload_items_keeps; [apply dict_get_set_same|].
    intros recorded Hr. apply record_of_In in Hr.
    destruct Hr as [_ ->]. exact Hdiff.
  - intros k Hk.
    destruct (unload_items_get (record_of remote_main)
                (dict_set name new_value loaded) k)
      as [H | (Hnone & cur & rec & Hcur & Hr & Heq)]; [congruence|].
    split; [exact Hnone|]. exists cur, rec. repeat split; auto.
    apply dict_get_of_In; auto.
    rewrite record_of_keys. apply first_occurrences_NoDup.
Qed.

Lemma unload_keeps_rebound_name_witness :
  exists loaded track unloaded,
    load_namespace two_names scope_x = inr loaded
    /\ dict_get GHIDRA_BRIDGE_NAMESPACE_TRACK loaded = Some (VDict track)
    /\ dict_get "foo" track = Some (getattr two_names "foo")
    /\ unload_namespace (dict_set "foo" (VInt 99) loaded) = inr unloaded
    /\ dict_get "foo" unloaded = Some (VInt 99)
    /\ forall k,
         dict_get k unloaded <> dict_get k (dict_set "foo" (VInt 99) loaded) ->
         dict_get k unloaded = None
         /\ exists current recorded,
              dict_get k (dict_set "foo" (VInt 99) loaded) = Some current
              /\ dict_get k track = Some recorded
              /\ py_eq current recorded = true.
Proof.
  apply (unload_keeps_rebound_name two_names scope_x "foo" (VInt 99)).
  - simpl. auto.
  - reflexivity.
Defined.

(** C2, as stated, fails: a name that was bound before the load is unbound
    after load and unload, not back at its earlier value. *)
Lemma load_unload_drops_earlier_binding :
  exists loaded unloaded,
    load_namespace two_names scope_foo = inr loaded
    /\ unload_namespace loaded = inr unloaded
    /\ In "foo" (projected_names two_names)
    /\ dict_get "foo" scope_foo = Some (VInt 5)
    /\ dict_get "foo" unloaded = None
    /\ dict_get "foo" unloaded <> dict_get "foo" scope_foo.
Proof.
  do 2 eexists. repeat split; try reflexivity.
  - simpl. auto.
  - discriminate.
Qed.

(** C2, amended.  A load followed at once by an unload leaves unbound every
    projected name whose resolved value is [==] to itself (every value but
    a float [nan]), so such a name is back in its state from before the load
    exactly when it was unbound then. *)
Theorem load_unload_unbinds_projected (remote_main : RemoteMain)
    (namespace : dict) (name : string) :
  In name (projected_names remote_main) ->
  py_eq (getattr remote_main name) (getattr remote_main name) = true ->
  exists loaded unloaded,
    load_namespace remote_main namespace = inr loaded
    /\ unload_namespace loaded = inr unloaded
    /\ dict_get name unloaded = None
    /\ (dict_get name unloaded = dict_get name namespace
        <-> dict_get name namespace = None).
Proof.
  intros Hname Hself.
  destruct (load_namespace_record remote_main namespace)
    as (loaded & Hload & Hrec & Hin & _).
  destruct (unload_after_load remote_main loaded Hrec Hin)
    as (unloaded & Hun & Hgone & _).
  exists loaded, unloaded. repeat split; auto.
  - intros H. rewrite <- H. now apply Hgone.
  - intros H. rewrite H. now apply Hgone.
Qed.

Lemma load_unload_unbinds_projected_witness :
  exists loaded unloaded,
    load_namespace two_names scope_x = inr loaded
    /\ unload_namespace loaded = inr unloaded
    /\ dict_get "bar" unloaded = None
    /\ (dict_get "bar" unloaded = dict_get "bar" scope_x
        <-> dict_get "bar" scope_x = None).
Proof.
  apply (load_unload_unbinds_projected two_names scope_x "bar").
  - simpl. auto.
  - reflexivity.
Defined.

(** C3, as stated, fails on the scenario of the specification: after the
    load into [{"x": 1}], the caller's [foo = 99] and the unload, the
    sentinel key is still in the namespace. *)
Lemma unload_scenario_keeps_sentinel :
  exists loaded,
    load_namespace two_names scope_x = inr loaded
    /\ dict_contains GHIDRA_BRIDGE_NAMESPACE_TRACK
         (dict_set "foo" (VInt 99) loaded) = true
    /\ unload_namespace (dict_set "foo" (VInt 99) loaded)
       = inr [("x", VInt 1);
              (GHIDRA_BRIDGE_NAMESPACE_TRACK,
               VDict [("foo", VInt 10); ("bar", VInt 20)]);
              ("foo", VInt 99)]
    /\ dict_contains GHIDRA_BRIDGE_NAMESPACE_TRACK
         [("x", VInt 1);
          (GHIDRA_BRIDGE_NAMESPACE_TRACK,
           VDict [("foo", VInt 10); ("bar", VInt 20)]);
          ("foo", VInt 99)] = true.
Proof. eexists. repeat split. Qed.

(** C3, amended.  When the namespace holds a sentinel record, the unload
    leaves the sentinel key in the namespace, bound to the same record,
    however many names it removed or left. *)
Theorem unload_leaves_sentinel (namespace track : dict) :
  dict_get GHIDRA_BRIDGE_NAMESPACE_TRACK namespace = Some (VDict track) ->
  exists unloaded,
    unload_namespace namespace = inr unloaded
    /\ dict_contains GHIDRA_BRIDGE_NAMESPACE_TRACK unloaded = true
    /\ dict_get GHIDRA_BRIDGE_NAMESPACE_TRACK unloaded = Some (VDict track).
Proof.
  intros Htrack.
  destruct (unload_namespace_sentinel namespace track Htrack)
    as (unloaded & Hun & Hget).
  exists unloaded. repeat split; auto.
  apply dict_contains_get. congruence.
Qed.

Lemma unload_leaves_sentinel_witness :
  exists unloaded,
    unload_namespace
      [("x", VInt 1);
       (GHIDRA_BRIDGE_NAMESPACE_TRACK, VDict [("foo", VInt 10)]);
       ("foo", VInt 10)] = inr unloaded
    /\ dict_contains GHIDRA_BRIDGE_NAMESPACE_TRACK unloaded = true
    /\ dict_get GHIDRA_BRIDGE_NAMESPACE_TRACK unloaded
       = Some (VDict [("foo", VInt 10)]).
Proof.
  apply (unload_leaves_sentinel _ [("foo", VInt 10)]). reflexivity.
Defined.

(** C4. After a load, every exposed name that does not start with [__] and
    is not excluded is bound to its resolved value, and the sentinel holds
    the record of exactly these bindings, in the order of the exposed names
    (all of them when no name is exposed twice). *)
Theorem load_binds_and_records (remote_main : RemoteMain) (namespace : dict) :
  exists loaded,
    load_namespace remote_main namespace = inr loaded
    /\ (forall attr,
          In attr (_bridge_attrs remote_main) ->
          startswith attr "__" = false ->
          str_in attr EXCLUDED_REMOTE_IMPORTS = false ->
          dict_get attr loaded = Some (getattr remote_main attr))
    /\ dict_get GHIDRA_BRIDGE_NAMESPACE_TRACK loaded
       = Some (VDict (record_of remote_main))
    /\ (forall k v, In (k, v) (record_of remote_main) <->
                    In k (projected_names remote_main)
                    /\ v = getattr remote_main k)
    /\ dict_keys (record_of remote_main)
       = first_occurrences (projected_names remote_main)
    /\ (NoDup (_bridge_attrs remote_main) ->
        record_of remote_main
        = map (binding_of remote_main) (projected_names remote_main)).
Proof.
  destruct (load_namespace_record remote_main namespace)
    as (loaded & Hload & Hrec & Hin & _).
  exists loaded. split; [exact Hload|]. split.
  { intros attr Hattr Hpriv Hexcl. apply Hin, projected_names_In.
    split; auto. unfold is_projected. now rewrite Hpriv, Hexcl. }
  split; [exact Hrec|]. split; [apply record_of_In|].
  split; [apply record_of_keys|].
  intros Hnd. unfold record_of. rewrite first_occurrences_id; auto.
  unfold projected_names. now apply NoDup_filter.
Qed.

(** C5. On a namespace without the sentinel key, [unload_flat_api] raises the
    exception of line 114 and leaves the session and the world, with every
    dictionary in it, as they were; so it does when called without argument
    on a session bound to that namespace. *)
Theorem unload_without_sentinel (me : GhidraBridge.t) (w : World) (l : loc) :
  dict_contains GHIDRA_BRIDGE_NAMESPACE_TRACK (heap w l) = false ->
  GhidraBridge.unload_flat_api (Some l) (me, w) = (inl NotProjected, (me, w))
  /\ (GhidraBridge.namespace me = Some l ->
      GhidraBridge.unload_flat_api None (me, w) = (inl NotProjected, (me, w))).
Proof.
  intros Habsent.
  assert (unload_namespace (heap w l) = inl NotProjected) as Hun.
  { unfold unload_namespace.
    destruct (dict_get GHIDRA_BRIDGE_NAMESPACE_TRACK (heap w l)) eqn:E; auto.
    assert (dict_contains GHIDRA_BRIDGE_NAMESPACE_TRACK (heap w l) = true)
      by (apply dict_contains_get; congruence).
    congruence. }
  split; [|intros Hns];
    rewrite (unload_flat_api_run me w l) by auto; now rewrite Hun.
Qed.

Lemma unload_without_sentinel_witness :
  GhidraBridge.unload_flat_api (Some 0) (fresh_session true, empty_world)
    = (inl NotProjected, (fresh_session true, empty_world))
  /\ (GhidraBridge.namespace (fresh_session true) = Some 0 ->
      GhidraBridge.unload_flat_api None (fresh_session true, empty_world)
        = (inl NotProjected, (fresh_session true, empty_world))).
Proof.
  apply (unload_without_sentinel (fresh_session true) empty_world 0).
  reflexivity.
Defined.

(** C6, as stated, fails: after a load of [foo] and [bar], a second load
    that finds only [foo], and one unload, [bar] is still bound and so is the
    sentinel, though the namespace had neither before. *)
Lemma reload_then_unload_leaves_bindings :
  exists first second,
    load_namespace two_names scope_x = inr first
    /\ load_namespace one_name first = inr second
    /\ unload_namespace second
       = inr [("x", VInt 1);
              (GHIDRA_BRIDGE_NAMESPACE_TRACK, VDict [("foo", VInt 10)]);
              ("bar", VInt 20)]
    /\ dict_get "bar" scope_x = None
    /\ dict_get GHIDRA_BRIDGE_NAMESPACE_TRACK scope_x = None.
Proof. do 2 eexists. repeat split. Qed.

(** C6, amended.  After two loads the sentinel holds one record, that of the
    second load alone, under a key that occurs once among the keys; one
    unload then succeeds and unbinds every name the second load projected
    with a value that is [==] to itself (every value but a float [nan]),
    leaves every name the second load did not project as the two loads left
    it, and leaves the sentinel with its record. *)
Theorem reload_then_unload (first_main second_main : RemoteMain)
    (namespace : dict) :
  exists first second unloaded,
    load_namespace first_main namespace = inr first
    /\ load_namespace second_main first = inr second
    /\ dict_get GHIDRA_BRIDGE_NAMESPACE_TRACK second
       = Some (VDict (record_of second_main))
    /\ (NoDup (dict_keys namespace) ->
        count_occ string_dec (dict_keys second) GHIDRA_BRIDGE_NAMESPACE_TRACK
        = 1)
    /\ unload_namespace second = inr unloaded
    /\ (forall k, In k (projected_names second_main) ->
                  py_eq (getattr second_main k) (getattr second_main k) = true ->
                  dict_get k unloaded = None)
    /\ (forall k, ~ In k (projected_names second_main) ->
                  dict_get k unloaded = dict_get k second)
    /\ dict_get GHIDRA_BRIDGE_NAMESPACE_TRACK unloaded
       = Some (VDict (record_of second_main)).
Proof.
  destruct (load_namespace_record first_main namespace)
    as (first & Hfirst & _).
  destruct (load_namespace_record second_main first)
    as (second & Hsecond & Hrec & Hin & _).
  destruct (unload_after_load second_main second Hrec Hin)
    as (unloaded & Hun & Hgone & _ & Hkept).
  exists first, second, unloaded.
  split; [exact Hfirst|]. split; [exact Hsecond|]. split; [exact Hrec|].
  split.
  { intros Hnd.
    apply (load_namespace_NoDup first_main namespace first) in Hnd; auto.
    apply (load_namespace_NoDup second_main first second) in Hnd; auto.
    apply NoDup_count_occ'; auto.
    destruct (in_dec string_dec GHIDRA_BRIDGE_NAMESPACE_TRACK
                     (dict_keys second)) as [Hi | Hi]; auto.
    apply dict_get_None_keys in Hi. congruence. }
  split; [exact Hun|]. split; [exact Hgone|]. split; [exact Hkept|].
  rewrite Hkept; auto.
  intros H. apply projected_names_In in H. destruct H as [_ H].
  discriminate H.
Qed.

(** C7, as stated, fails: after two calls of [get_flat_api] on a session in
    interactive mode, two runs of the listener's [__del__] send two
    [removeToolListener] to the remote tool, the second for a listener that
    the tool has removed already. *)
Lemma teardown_twice_sends_two :
  exists me1 w1 me2 w2 listener w3 w4,
    GhidraBridge.get_flat_api two_names None (fresh_session true, empty_world)
      = (inr two_names, (me1, w1))
    /\ GhidraBridge.get_flat_api two_names (Some 0) (me1, w1)
       = (inr two_names, (me2, w2))
    /\ GhidraBridge.interactive_listener me2 = Some listener
    /\ InteractiveListener.__del__ listener (Removed []) w2 = (inr tt, w3)
    /\ InteractiveListener.__del__ listener (Removed []) w3 = (inr tt, w4)
    /\ remote_calls w4
       = [addToolListener 7 0; removeToolListener 7 0; removeToolListener 7 0]
    /\ removals_of 7 0 (remote_calls w4) = 2.
Proof. do 7 eexists. repeat split. Qed.

(** C7, amended.  On a session in interactive mode without a listener, two
    calls of [get_flat_api] send one [addToolListener] in all and keep the
    listener of the first call.  The listener's [__del__] has no guard
    against a second run: each run sends one [removeToolListener] for the
    same listener, so two runs send two, whatever the remote tool answers;
    a run raises exactly when the remote tool fails. *)
Theorem listener_registered_once (me : GhidraBridge.t) (w : World)
    (first_main second_main : RemoteMain) (ns1 ns2 : option loc) :
  GhidraBridge.interactive_mode me = true ->
  GhidraBridge.interactive_listener me = None ->
  exists me1 w1 me2 w2 listener,
    GhidraBridge.get_flat_api first_main ns1 (me, w)
      = (inr first_main, (me1, w1))
    /\ GhidraBridge.get_flat_api second_main ns2 (me1, w1)
       = (inr second_main, (me2, w2))
    /\ GhidraBridge.interactive_listener me1 = Some listener
    /\ GhidraBridge.interactive_listener me2 = Some listener
    /\ remote_calls w2
       = remote_calls w
         ++ [addToolListener (InteractiveListener.tool listener)
                             (InteractiveListener.id listener)]
    /\ registrations (remote_calls w2) = S (registrations (remote_calls w))
    /\ forall (answer1 answer2 : RemovalAnswer),
         let first := InteractiveListener.__del__ listener answer1 w2 in
         let second := InteractiveListener.__del__ listener answer2
                                                  (snd first) in
         remote_calls (snd second)
         = remote_calls w2
           ++ [removeToolListener (InteractiveListener.tool listener)
                                  (InteractiveListener.id listener);
               removeToolListener (InteractiveListener.tool listener)
                                  (InteractiveListener.id listener)]
         /\ fst first = match answer1 with
                        | Removed _ => inr tt
                        | RemovalFailed => inl RemoteError
                        end
         /\ fst second = match answer2 with
                         | Removed _ => inr tt
                         | RemovalFailed => inl RemoteError
                         end.
Proof.
  intros Hmode Hnone.
  destruct (get_flat_api_first me w first_main ns1 Hmode Hnone)
    as (me1 & w1 & listener & Hrun1 & Hl & Hl1 & Hmode1 & _ & _ & _ & Hc1 & _).
  destruct (get_flat_api_plain me1 w1 second_main ns2)
    as (w2 & Hrun2 & _ & Hc2 & _).
  { right. congruence. }
  exists me1, w1, me1, w2, listener.
  split; [exact Hrun1|]. split; [exact Hrun2|].
  split; [exact Hl1|]. split; [exact Hl1|].
  assert (remote_calls w2
          = remote_calls w
            ++ [addToolListener (InteractiveListener.tool listener)
                                (InteractiveListener.id listener)]) as Hcalls.
  { rewrite Hc2, Hc1, Hl. reflexivity. }
  split; [exact Hcalls|]. split.
  { rewrite Hcalls. unfold registrations.
    rewrite filter_app, length_app. simpl. lia. }
  intros answer1 answer2.
  unfold InteractiveListener.__del__, tool_remove.
  destruct answer1, answer2; cbn; rewrite <- app_assoc; auto.
Qed.

Lemma listener_registered_once_witness :
  exists me1 w1 me2 w2 listener,
    GhidraBridge.get_flat_api two_names None (fresh_session true, empty_world)
      = (inr two_names, (me1, w1))
    /\ GhidraBridge.get_flat_api two_names (Some 0) (me1, w1)
       = (inr two_names, (me2, w2))
    /\ GhidraBridge.interactive_listener me1 = Some listener
    /\ GhidraBridge.interactive_listener me2 = Some listener
    /\ remote_calls w2
       = remote_calls empty_world
         ++ [addToolListener (InteractiveListener.tool listener)
                             (InteractiveListener.id listener)]
    /\ registrations (remote_calls w2)
       = S (registrations (remote_calls empty_world))
    /\ forall (answer1 answer2 : RemovalAnswer),
         let first := InteractiveListener.__del__ listener answer1 w2 in
         let second := InteractiveListener.__del__ listener answer2
                                                  (snd first) in
         remote_calls (snd second)
         = remote_calls w2
           ++ [removeToolListener (InteractiveListener.tool listener)
                                  (InteractiveListener.id listener);
               removeToolListener (InteractiveListener.tool listener)
                                  (InteractiveListener.id listener)]
         /\ fst first = match answer1 with
                        | Removed _ => inr tt
                        | RemovalFailed => inl RemoteError
                        end
         /\ fst second = match answer2 with
                         | Removed _ => inr tt
                         | RemovalFailed => inl RemoteError
                         end.
Proof.
  apply (listener_registered_once (fresh_session true) empty_world
           two_names two_names None (Some 0)); reflexivity.
Defined.

(** C8, as stated, fails: built without a namespace and in interactive
    mode, the session has no listener and nothing was sent to the remote
    tool. *)
Lemma init_without_namespace_no_listener :
  exists me,
    GhidraBridge.__init__ (Some "127.0.0.1") (Some 4768) None None true
                          two_names empty_world
      = (inr tt, (me, empty_world))
    /\ GhidraBridge.interactive_mode me = true
    /\ GhidraBridge.interactive_listener me = None
    /\ remote_calls empty_world = [].
Proof. eexists. repeat split. Qed.

(** C8, amended.  [__init__] always builds the transport handle from its
    arguments.  With a namespace, and host and port both given, it loads into
    the namespace and, in interactive mode, creates the listener and
    registers it with the remote tool; with a namespace but no host or no
    port it raises; without a namespace it loads nothing and creates no
    listener, whatever the interactive flag. *)
Theorem init_constructs_session (host : option string) (port : option nat)
    (level : option nat) (namespace : option loc) (interactive : bool)
    (remote_main : RemoteMain) (w : World) :
  exists res me w',
    GhidraBridge.__init__ host port level namespace interactive remote_main w
      = (res, (me, w'))
    /\ GhidraBridge.bridge me
       = {| connect_to_host := host; connect_to_port := port;
            loglevel := level |}
    /\ GhidraBridge.interactive_mode me = interactive
    /\ match namespace, host, port with
       | Some l, Some _, Some _ =>
           res = inr tt
           /\ GhidraBridge.namespace me = Some l
           /\ load_namespace remote_main (heap w l) = inr (heap w' l)
           /\ (forall l', l' <> l -> heap w' l' = heap w l')
           /\ if interactive
              then exists listener,
                     GhidraBridge.interactive_listener me = Some listener
                     /\ InteractiveListener.tool listener
                        = state_getTool remote_main
                     /\ remote_calls w'
                        = remote_calls w
                          ++ [addToolListener
                                (InteractiveListener.tool listener)
                                (InteractiveListener.id listener)]
                     /\ In (InteractiveListener.tool listener,
                            InteractiveListener.id listener)
                           (tool_listeners w')
              else GhidraBridge.interactive_listener me = None
                   /\ remote_calls w' = remote_calls w
       | Some l, _, _ =>
           res = inl NoServer
           /\ GhidraBridge.interactive_listener me = None
           /\ w' = w
       | None, _, _ =>
           res = inr tt
           /\ GhidraBridge.namespace me = None
           /\ GhidraBridge.interactive_listener me = None
           /\ w' = w
       end.
Proof.
  unfold GhidraBridge.__init__.
  destruct namespace as [l|].
  2:{ do 3 eexists. split; [reflexivity|]. cbn.
      destruct host, port; repeat split. }
  destruct host as [h|], port as [p|];
    try (do 3 eexists; split; [reflexivity|]; cbn; repeat split).
  unfold bind at 1. unfold GhidraBridge.set_namespace at 1. cbn [fst snd].
  set (me0 := {| GhidraBridge.bridge := _ |}).
  destruct interactive.
  - destruct (get_flat_api_first me0 w remote_main (Some l))
      as (me' & w' & listener & Hrun & Hl & Hl' & Hm & Hb & Hn & Ht & Hc
          & Hload & Hframe); try reflexivity.
    unfold bind. rewrite Hrun. unfold ret.
    exists (inr tt), me', w'. split; [reflexivity|].
    split; [exact Hb|]. split; [exact Hm|].
    split; [reflexivity|]. split; [exact Hn|].
    split; [exact Hload|]. split; [exact Hframe|].
    exists listener. split; [exact Hl'|]. rewrite Hl. cbn.
    split; [reflexivity|]. split; [exact Hc|].
    rewrite Ht. apply in_or_app. right. now left.
  - destruct (get_flat_api_plain me0 w remote_main (Some l))
      as (w' & Hrun & _ & Hc & _ & Hload & Hframe); [now left|].
    unfold bind. rewrite Hrun. unfold ret.
    exists (inr tt), me0, w'. repeat split; auto.
Qed.

(** C9. On a session bound to a namespace, [__exit__] is one call of
    [unload_flat_api] on that namespace; and once the caller's own call of
    [unload_flat_api] on it, with or without the argument, has returned,
    [__exit__] returns without raising. *)
Theorem exit_after_manual_unload (me : GhidraBridge.t) (w : World) (l : loc) :
  GhidraBridge.namespace me = Some l ->
  GhidraBridge.__exit__ (me, w) = GhidraBridge.unload_flat_api (Some l) (me, w)
  /\ forall (arg : option loc) (after : GhidraBridge.state),
       arg = None \/ arg = Some l ->
       GhidraBridge.unload_flat_api arg (me, w) = (inr tt, after) ->
       GhidraBridge.__exit__ after
         = GhidraBridge.unload_flat_api (Some l) after
       /\ exists final, GhidraBridge.__exit__ after = (inr tt, final).
Proof.
  intros Hns. split; [now apply exit_run|].
  intros arg after Harg Hrun.
  rewrite (unload_flat_api_run me w l) in Hrun by (destruct Harg; auto).
  destruct (unload_namespace (heap w l)) as [e|d] eqn:Hun; [discriminate|].
  injection Hrun as <-.
  split; [now apply exit_run|].
  rewrite (exit_run _ _ l Hns), (unload_flat_api_run _ _ l) by auto.
  cbn [heap]. rewrite heap_set_same.
  destruct (unload_namespace_ok _ _ Hun) as (track & _ & Htrack).
  destruct (unload_namespace_sentinel d track Htrack) as (d' & Hd' & _).
  rewrite Hd'. eauto.
Qed.

Lemma exit_after_manual_unload_witness :
  GhidraBridge.__exit__ (snd session_x)
    = GhidraBridge.unload_flat_api (Some 3) (snd session_x)
  /\ forall (arg : option loc) (after : GhidraBridge.state),
       arg = None \/ arg = Some 3 ->
       GhidraBridge.unload_flat_api arg (snd session_x) = (inr tt, after) ->
       GhidraBridge.__exit__ after
         = GhidraBridge.unload_flat_api (Some 3) after
       /\ exists final, GhidraBridge.__exit__ after = (inr tt, final).
Proof.
  apply (exit_after_manual_unload (fst (snd session_x)) (snd (snd session_x)) 3).
  reflexivity.
Defined.

(** C10. A load changes the binding of no name other than the projected
    names and the sentinel key. *)
Theorem load_frame (remote_main : RemoteMain) (namespace : dict)
    (name : string) :
  ~ In name (projected_names remote_main) ->
  name <> GHIDRA_BRIDGE_NAMESPACE_TRACK ->
  exists loaded,
    load_namespace remote_main namespace = inr loaded
    /\ dict_get name loaded = dict_get name namespace.
Proof.
  intros Hout Hne.
  destruct (load_namespace_record remote_main namespace)
    as (loaded & Hload & _ & _ & Hframe).
  exists loaded. auto.
Qed.

Lemma load_frame_witness :
  exists loaded,
    load_namespace two_names scope_x = inr loaded
    /\ dict_get "x" loaded = dict_get "x" scope_x.
Proof.
  apply (load_frame two_names scope_x "x").
  - simpl. intros [H | [H | []]]; discriminate H.
  - discriminate.
Defined.

(** * Further properties of the code *)

(** ** Dictionaries, continued *)

Lemma dict_set_same_value (k : string) (v : value) (d : dict) :
  dict_get k d = Some v -> dict_set k v d = d.
Proof.
  induction d as [|[k' v'] d IH]; simpl; [discriminate|].
  destruct (String.eqb k k') eqn:E.
  - now intros [= ->].
  - intros H. now rewrite IH.
Qed.

Lemma dict_set_twice (k : string) (v v' : value) (d : dict) :
  dict_set k v (dict_set k v' d) = dict_set k v d.
Proof.
  induction d as [|[k0 v0] d IH]; simpl.
  - now rewrite String.eqb_refl.
  - destruct (String.eqb k k0) eqn:E; simpl; rewrite E; congruence.
Qed.

Lemma str_in_keys (k : string) (d : dict) :
  str_in k (dict_keys d) = dict_contains k d.
Proof.
  unfold str_in. induction d as [|[k' v'] d IH]; simpl; congruence.
Qed.

Lemma dict_keys_set_add (k : string) (v : value) (d : dict) :
  dict_keys (dict_set k v d) = add_name (dict_keys d) k.
Proof. unfold add_name. rewrite dict_keys_set, str_in_keys. reflexivity. Qed.

Lemma add_name_present (names : list string) (a : string) :
  str_in a names = true -> add_name names a = names.
Proof. unfold add_name. now intros ->. Qed.

Lemma add_name_keeps (names : list string) (a b : string) :
  str_in b names = true -> str_in b (add_name names a) = true.
Proof.
  unfold add_name, str_in. intros H.
  destruct (existsb (String.eqb a) names); auto.
  rewrite existsb_app, H. reflexivity.
Qed.

(** ** The caller's steps *)

Lemma caller_step_get (d d' : dict) (o : caller_op) (k : string) :
  dict_get k d = dict_get k d' ->
  dict_get k (caller_step d o) = dict_get k (caller_step d' o).
Proof.
  intros H. destruct o as [n v | n]; simpl;
    destruct (string_dec n k) as [-> | Hne].
  - now rewrite !dict_get_set_same.
  - now rewrite !dict_get_set_other.
  - now rewrite !dict_get_del_same.
  - now rewrite !dict_get_del_other.
Qed.

(** A name the caller does not touch keeps its binding. *)
Lemma caller_step_other (d : dict) (o : caller_op) (k : string) :
  op_name o <> k -> dict_get k (caller_step d o) = dict_get k d.
Proof.
  destruct o as [n v | n]; simpl; intros Hne.
  - now apply dict_get_set_other.
  - now apply dict_get_del_other.
Qed.

Lemma caller_steps_get (ops : list caller_op) :
  forall (d d' : dict) (k : string),
    dict_get k d = dict_get k d' ->
    dict_get k (caller_steps ops d) = dict_get k (caller_steps ops d').
Proof.
  unfold caller_steps.
  induction ops as [|o ops IH]; intros d d' k H; simpl; auto.
  apply IH. now apply caller_step_get.
Qed.

Lemma caller_steps_other (ops : list caller_op) :
  forall (d : dict) (k : string),
    ~ In k (map op_name ops) ->
    dict_get k (caller_steps ops d) = dict_get k d.
Proof.
  unfold caller_steps.
  induction ops as [|o ops IH]; intros d k Hk; simpl; auto.
  rewrite IH by (intros H; apply Hk; now right).
  apply caller_step_other. intros H. apply Hk. now left.
Qed.

(** ** Unloading, continued *)

(** Items that match no current binding leave the namespace as it is. *)
Lemma unload_items_idle (track : dict) :
  forall (namespace : dict),
    (forall key recorded current,
        In (key, recorded) track ->
        dict_get key namespace = Some current ->
        py_eq current recorded = false) ->
    fold_left unload_item track namespace = namespace.
Proof.
  induction track as [|[key recorded] track IH]; intros namespace Hdiff;
    cbn [fold_left]; auto.
  assert (unload_item namespace (key, recorded) = namespace) as ->.
  { unfold unload_item.
    destruct (dict_get key namespace) as [current|] eqn:E; auto.
    now rewrite (Hdiff key recorded current (or_introl eq_refl) E). }
  apply IH. intros k r c Hin. apply Hdiff. now right.
Qed.

(** After the loop, no binding is left that equals a value recorded for
    its name. *)
Lemma unload_items_settled (track namespace : dict) (key : string)
    (recorded current : value) :
  In (key, recorded) track ->
  dict_get key (fold_left unload_item track namespace) = Some current ->
  py_eq current recorded = false.
Proof.
  intros Hin Hcur.
  destruct (unload_items_get track namespace key) as [Hsame | [Hnone _]];
    [|congruence].
  destruct (py_eq current recorded) eqn:Heq; auto.
  rewrite Hsame in Hcur.
  rewrite (unload_items_removes track namespace key current recorded)
    in Hsame by assumption.
  congruence.
Qed.

(** X1. An unload that returned can be repeated: the second one returns as
    well, with the namespace exactly as the first one left it. *)
Theorem unload_twice (namespace unloaded : dict) :
  unload_namespace namespace = inr unloaded ->
  unload_namespace unloaded = inr unloaded.
Proof.
  intros Hun.
  destruct (unload_namespace_ok _ _ Hun) as (track & Hns & Hun').
  unfold unload_namespace in Hun |- *. rewrite Hns in Hun. rewrite Hun'.
  injection Hun as <-. f_equal.
  apply unload_items_idle. intros key recorded current Hin Hcur.
  now apply (unload_items_settled track namespace key).
Qed.

Lemma unload_twice_witness :
  unload_namespace
    [("x", VInt 1);
     (GHIDRA_BRIDGE_NAMESPACE_TRACK,
      VDict [("foo", VInt 10); ("bar", VInt 20)]);
     ("foo", VInt 99)]
  = inr [("x", VInt 1);
         (GHIDRA_BRIDGE_NAMESPACE_TRACK,
          VDict [("foo", VInt 10); ("bar", VInt 20)]);
         ("foo", VInt 99)].
Proof.
  apply (unload_twice
           [("x", VInt 1);
            (GHIDRA_BRIDGE_NAMESPACE_TRACK,
             VDict [("foo", VInt 10); ("bar", VInt 20)]);
            ("foo", VInt 99); ("bar", VInt 20)]).
  reflexivity.
Defined.

(** X2. What an unload does to each name: a name bound to a value [==] to
    the one recorded for it becomes unbound; every other name, recorded or
    not, bound or not, is left as it was. *)
Theorem unload_by_name (namespace track : dict) (k : string) :
  dict_get GHIDRA_BRIDGE_NAMESPACE_TRACK namespace = Some (VDict track) ->
  NoDup (dict_keys track) ->
  exists unloaded,
    unload_namespace namespace = inr unloaded
    /\ dict_get k unloaded
       = match dict_get k namespace, dict_get k track with
         | Some current, Some recorded =>
             if py_eq current recorded then None else Some current
         | binding, _ => binding
         end.
Proof.
  intros Htrack Hnd. unfold unload_namespace. rewrite Htrack.
  eexists. split; [reflexivity|].
  destruct (dict_get k namespace) as [current|] eqn:Hcur;
    [|now apply unload_items_unbound].
  destruct (dict_get k track) as [recorded|] eqn:Hrec.
  - destruct (py_eq current recorded) eqn:Heq.
    + apply (unload_items_removes track namespace k current recorded); auto.
      now apply dict_get_In.
    + apply unload_items_keeps; auto.
      intros recorded' Hin.
      apply (dict_get_of_In track k recorded' Hnd) in Hin. congruence.
  - apply unload_items_keeps; auto.
    intros recorded Hin. exfalso.
    apply dict_get_None_keys in Hrec. apply Hrec.
    change k with (fst (k, recorded)). now apply in_map.
Qed.

Lemma unload_by_name_witness :
  exists unloaded,
    unload_namespace
      [("x", VInt 1);
       (GHIDRA_BRIDGE_NAMESPACE_TRACK,
        VDict [("foo", VInt 10); ("bar", VInt 20)]);
       ("foo", VInt 99); ("bar", VInt 20)] = inr unloaded
    /\ dict_get "bar" unloaded
       = match dict_get "bar"
                 [("x", VInt 1);
                  (GHIDRA_BRIDGE_NAMESPACE_TRACK,
                   VDict [("foo", VInt 10); ("bar", VInt 20)]);
                  ("foo", VInt 99); ("bar", VInt 20)],
               dict_get "bar" [("foo", VInt 10); ("bar", VInt 20)] with
         | Some current, Some recorded =>
             if py_eq current recorded then None else Some current
         | binding, _ => binding
         end.
Proof.
  apply (unload_by_name _ [("foo", VInt 10); ("bar", VInt 20)] "bar").
  - reflexivity.
  - repeat constructor; simpl; intuition discriminate.
Defined.

(** X3. The unload compares with [==], not by identity: after a load, a
    projected name that the caller has rebound to another value that is [==]
    to the recorded one is removed like an untouched name. *)
Theorem unload_removes_equal_rebinding (remote_main : RemoteMain)
    (namespace : dict) (name : string) (new_value : value) :
  In name (projected_names remote_main) ->
  py_eq new_value (getattr remote_main name) = true ->
  exists loaded unloaded,
    load_namespace remote_main namespace = inr loaded
    /\ unload_namespace (dict_set name new_value loaded) = inr unloaded
    /\ dict_get name (dict_set name new_value loaded) = Some new_value
    /\ dict_get name unloaded = None.
Proof.
  intros Hname Heq.
  destruct (load_namespace_record remote_main namespace)
    as (loaded & Hload & Hrec & _).
  assert (name <> GHIDRA_BRIDGE_NAMESPACE_TRACK) as Hne.
  { apply sentinel_not_projected. now apply projected_names_In in Hname. }
  exists loaded. eexists. split; [exact Hload|]. split.
  { unfold unload_namespace.
    rewrite dict_get_set_other by exact Hne. now rewrite Hrec. }
  split; [apply dict_get_set_same|].
  apply (unload_items_removes _ _ name new_value (getattr remote_main name));
    auto.
  - now apply record_of_In.
  - apply dict_get_set_same.
Qed.

Lemma unload_removes_equal_rebinding_witness :
  exists loaded unloaded,
    load_namespace flag_remote scope_x = inr loaded
    /\ unload_namespace (dict_set "flag" (VBool true) loaded) = inr unloaded
    /\ dict_get "flag" (dict_set "flag" (VBool true) loaded)
       = Some (VBool true)
    /\ dict_get "flag" unloaded = None.
Proof.
  apply (unload_removes_equal_rebinding flag_remote scope_x "flag"
           (VBool true)).
  - simpl. auto.
  - reflexivity.
Defined.

(** X4. A projected name that the caller has deleted does not stop the
    unload (line 110 tests [key in namespace] first): the unload returns, the
    deleted name stays unbound, every other projected name whose value is
    [==] to itself is removed and the unprojected names are left alone. *)
Theorem unload_after_caller_delete (remote_main : RemoteMain)
    (namespace : dict) (name : string) :
  In name (projected_names remote_main) ->
  exists loaded unloaded,
    load_namespace remote_main namespace = inr loaded
    /\ unload_namespace (dict_del name loaded) = inr unloaded
    /\ dict_get name unloaded = None
    /\ (forall k, In k (projected_names remote_main) ->
                  py_eq (getattr remote_main k) (getattr remote_main k) = true ->
                  dict_get k unloaded = None)
    /\ (forall k, ~ In k (projected_names remote_main) ->
                  dict_get k unloaded = dict_get k loaded).
Proof.
  intros Hname.
  destruct (load_namespace_record remote_main namespace)
    as (loaded & Hload & Hrec & Hin & _).
  assert (name <> GHIDRA_BRIDGE_NAMESPACE_TRACK) as Hne.
  { apply sentinel_not_projected. now apply projected_names_In in Hname. }
  exists loaded. eexists. split; [exact Hload|]. split.
  { unfold unload_namespace.
    rewrite dict_get_del_other by exact Hne. now rewrite Hrec. }
  split; [apply unload_items_unbound, dict_get_del_same|]. split.
  - intros k Hk Hself. destruct (string_dec name k) as [<- | Hnk].
    + apply unload_items_unbound, dict_get_del_same.
    + apply (unload_items_removes _ _ k (getattr remote_main k)
                                  (getattr remote_main k)); auto.
      * now apply record_of_In.
      * rewrite dict_get_del_other by exact Hnk. now apply Hin.
  - intros k Hk.
    assert (name <> k) as Hnk by congruence.
    rewrite <- (dict_get_del_other name k loaded Hnk).
    destruct (unload_items_get (record_of remote_main)
                               (dict_del name loaded) k)
      as [H | (_ & cur & rec & _ & Hr & _)]; auto.
    apply record_of_In in Hr. tauto.
Qed.

Lemma unload_after_caller_delete_witness :
  exists loaded unloaded,
    load_namespace two_names scope_x = inr loaded
    /\ unload_namespace (dict_del "foo" loaded) = inr unloaded
    /\ dict_get "foo" unloaded = None
    /\ (forall k, In k (projected_names two_names) ->
                  py_eq (getattr two_names k) (getattr two_names k) = true ->
                  dict_get k unloaded = None)
    /\ (forall k, ~ In k (projected_names two_names) ->
                  dict_get k unloaded = dict_get k loaded).
Proof.
  apply (unload_after_caller_delete two_names scope_x "foo").
  simpl. auto.
Defined.

(** X5. Round trip on a namespace that binds none of the projected names,
    when every projected value is [==] to itself: a load followed by an
    unload gives back the binding of every name but the sentinel key, which
    now holds the record. *)
Theorem load_unload_round_trip (remote_main : RemoteMain) (namespace : dict) :
  (forall k, In k (projected_names remote_main) ->
             dict_get k namespace = None
             /\ py_eq (getattr remote_main k) (getattr remote_main k) = true) ->
  exists loaded unloaded,
    load_namespace remote_main namespace = inr loaded
    /\ unload_namespace loaded = inr unloaded
    /\ (forall k, k <> GHIDRA_BRIDGE_NAMESPACE_TRACK ->
                  dict_get k unloaded = dict_get k namespace)
    /\ dict_get GHIDRA_BRIDGE_NAMESPACE_TRACK unloaded
       = Some (VDict (record_of remote_main)).
Proof.
  intros Hfresh.
  destruct (load_namespace_record remote_main namespace)
    as (loaded & Hload & Hrec & Hin & Hout).
  destruct (unload_after_load remote_main loaded Hrec Hin)
    as (unloaded & Hun & Hgone & _ & Hkept).
  exists loaded, unloaded. split; [exact Hload|]. split; [exact Hun|]. split.
  - intros k Hk.
    destruct (in_dec string_dec k (projected_names remote_main)) as [Hp | Hp].
    + destruct (Hfresh k Hp) as [Hnone Hself]. now rewrite Hgone, Hnone.
    + now rewrite Hkept, Hout.
  - rewrite Hkept; auto.
    intros H. apply projected_names_In in H. destruct H as [_ H].
    discriminate H.
Qed.

Lemma load_unload_round_trip_witness :
  exists loaded unloaded,
    load_namespace two_names scope_x = inr loaded
    /\ unload_namespace loaded = inr unloaded
    /\ (forall k, k <> GHIDRA_BRIDGE_NAMESPACE_TRACK ->
                  dict_get k unloaded = dict_get k scope_x)
    /\ dict_get GHIDRA_BRIDGE_NAMESPACE_TRACK unloaded
       = Some (VDict (record_of two_names)).
Proof.
  apply (load_unload_round_trip two_names scope_x).
  simpl. intros k [<- | [<- | []]]; split; reflexivity.
Defined.

(** X14. A projected name whose resolved value is not [==] to itself, a
    float [nan], is not removed: after a load followed at once by an unload
    it is still bound to that value (line 111 compares with [==]). *)
Theorem load_unload_keeps_nan (remote_main : RemoteMain) (namespace : dict)
    (name : string) :
  In name (projected_names remote_main) ->
  py_eq (getattr remote_main name) (getattr remote_main name) = false ->
  exists loaded unloaded,
    load_namespace remote_main namespace = inr loaded
    /\ unload_namespace loaded = inr unloaded
    /\ dict_get name unloaded = Some (getattr remote_main name).
Proof.
  intros Hname Hself.
  destruct (load_namespace_record remote_main namespace)
    as (loaded & Hload & Hrec & Hin & _).
  destruct (unload_after_load remote_main loaded Hrec Hin)
    as (unloaded & Hun & _ & Hstay & _).
  exists loaded, unloaded. auto.
Qed.

Lemma load_unload_keeps_nan_witness :
  exists loaded unloaded,
    load_namespace nan_remote scope_x = inr loaded
    /\ unload_namespace loaded = inr unloaded
    /\ dict_get "ratio" unloaded = Some (getattr nan_remote "ratio").
Proof.
  apply (load_unload_keeps_nan nan_remote scope_x "ratio").
  - simpl. auto.
  - reflexivity.
Defined.

(** ** Loading, continued *)

Lemma load_attrs_again (remote_main : RemoteMain) (loaded : dict)
    (attrs : list string) :
  (forall a, In a (filter is_projected attrs) ->
             dict_get a loaded = Some (getattr remote_main a)) ->
  forall track,
    load_attrs remote_main attrs
      (dict_set GHIDRA_BRIDGE_NAMESPACE_TRACK (VDict track) loaded)
    = inr (dict_set GHIDRA_BRIDGE_NAMESPACE_TRACK
             (VDict (fold_left (track_step remote_main) attrs track)) loaded).
Proof.
  induction attrs as [|a attrs IH]; intros Hbound track; simpl; auto.
  unfold load_attr, track_step at 2.
  destruct (is_projected a) eqn:Hp.
  - pose proof (sentinel_not_projected a Hp) as Hne.
    assert (dict_get a loaded = Some (getattr remote_main a)) as Ha.
    { apply Hbound. simpl. rewrite Hp. now left. }
    rewrite (dict_set_same_value a (getattr remote_main a))
      by (rewrite dict_get_set_other by congruence; exact Ha).
    rewrite dict_get_set_same, dict_set_twice.
    apply IH. intros b Hb. apply Hbound. simpl. rewrite Hp. now right.
  - apply IH. intros b Hb. apply Hbound. simpl. now rewrite Hp.
Qed.

(** X6. Loading again from the same remote module is idle: the second load
    returns the namespace exactly as the first one left it, the order of the
    keys included. *)
Theorem load_twice (remote_main : RemoteMain) (namespace loaded : dict) :
  load_namespace remote_main namespace = inr loaded ->
  load_namespace remote_main loaded = inr loaded.
Proof.
  intros Hload.
  destruct (load_namespace_record remote_main namespace)
    as (loaded' & Hload' & Hrec & Hin & _).
  assert (loaded' = loaded) as -> by congruence.
  unfold load_namespace.
  rewrite (load_attrs_again remote_main loaded) by exact Hin.
  rewrite track_steps_record. f_equal.
  now apply dict_set_same_value.
Qed.

Lemma load_twice_witness :
  load_namespace two_names
    [("x", VInt 1);
     (GHIDRA_BRIDGE_NAMESPACE_TRACK,
      VDict [("foo", VInt 10); ("bar", VInt 20)]);
     ("foo", VInt 10); ("bar", VInt 20)]
  = inr [("x", VInt 1);
         (GHIDRA_BRIDGE_NAMESPACE_TRACK,
          VDict [("foo", VInt 10); ("bar", VInt 20)]);
         ("foo", VInt 10); ("bar", VInt 20)].
Proof.
  apply (load_twice two_names scope_x). reflexivity.
Defined.

Lemma load_attrs_keys (remote_main : RemoteMain) (attrs : list string) :
  forall (namespace loaded : dict),
    dict_contains GHIDRA_BRIDGE_NAMESPACE_TRACK namespace = true ->
    load_attrs remote_main attrs namespace = inr loaded ->
    dict_keys loaded
    = fold_left add_name (filter is_projected attrs) (dict_keys namespace).
Proof.
  induction attrs as [|a attrs IH]; intros namespace loaded Hs Hrun;
    simpl in Hrun.
  - now injection Hrun as <-.
  - unfold load_attr in Hrun. simpl.
    destruct (is_projected a) eqn:Hp; [|now apply IH].
    destruct (dict_get _ _) as [[| | | | | |track]|]; try discriminate.
    assert (str_in GHIDRA_BRIDGE_NAMESPACE_TRACK
              (add_name (dict_keys namespace) a) = true) as Hs'.
    { apply add_name_keeps. now rewrite str_in_keys. }
    set (next := dict_set GHIDRA_BRIDGE_NAMESPACE_TRACK _ _) in Hrun.
    assert (dict_keys next = add_name (dict_keys namespace) a) as Hkeys.
    { unfold next. rewrite !dict_keys_set_add. now apply add_name_present. }
    rewrite (IH next loaded); [now rewrite Hkeys | | exact Hrun].
    now rewrite <- str_in_keys, Hkeys.
Qed.

(** X7. A load keeps every key the namespace had in its place and puts the
    new keys behind them: the sentinel key first, then the projected names
    in the order the remote module exposes them. *)
Theorem load_key_order (remote_main : RemoteMain) (namespace : dict) :
  exists loaded,
    load_namespace remote_main namespace = inr loaded
    /\ dict_keys loaded
       = dict_keys namespace
         ++ filter (fun k => negb (dict_contains k namespace))
              (GHIDRA_BRIDGE_NAMESPACE_TRACK
               :: first_occurrences (projected_names remote_main)).
Proof.
  destruct (load_namespace_record remote_main namespace)
    as (loaded & Hload & _).
  exists loaded. split; [exact Hload|].
  unfold load_namespace in Hload.
  apply load_attrs_keys in Hload;
    [|apply dict_contains_get; rewrite dict_get_set_same; discriminate].
  rewrite Hload, dict_keys_set_add.
  change (fold_left add_name (filter is_projected (_bridge_attrs remote_main))
            (add_name (dict_keys namespace) GHIDRA_BRIDGE_NAMESPACE_TRACK))
    with (fold_left add_name
            (GHIDRA_BRIDGE_NAMESPACE_TRACK :: projected_names remote_main)
            (dict_keys namespace)).
  rewrite add_names_first_occurrences. f_equal.
  cbn [first_occurrences].
  rewrite (forallb_filter_id
             (fun b => negb (String.eqb b GHIDRA_BRIDGE_NAMESPACE_TRACK))).
  - apply filter_ext. intros k. now rewrite str_in_keys.
  - apply forallb_forall. intros k Hk.
    apply first_occurrences_In, projected_names_In in Hk.
    destruct Hk as [_ Hp]. apply negb_true_iff, String.eqb_neq.
    now apply sentinel_not_projected.
Qed.

(** X8. The exclusion list does what lines 3-7 say it is for: whatever the
    remote module exposes under a name of [EXCLUDED_REMOTE_IMPORTS], a load
    leaves the caller's binding of that name, or its absence, as it was. *)
Theorem load_spares_excluded (remote_main : RemoteMain) (namespace : dict)
    (name : string) :
  str_in name EXCLUDED_REMOTE_IMPORTS = true ->
  exists loaded,
    load_namespace remote_main namespace = inr loaded
    /\ dict_get name loaded = dict_get name namespace.
Proof.
  intros Hex.
  destruct (load_namespace_record remote_main namespace)
    as (loaded & Hload & _ & _ & Hout).
  exists loaded. split; [exact Hload|]. apply Hout.
  - intros Hp. apply projected_names_In in Hp. destruct Hp as [_ Hp].
    unfold is_projected in Hp. rewrite Hex in Hp.
    now rewrite andb_false_r in Hp.
  - intros ->. discriminate Hex.
Qed.

Lemma load_spares_excluded_witness :
  exists loaded,
    load_namespace two_names [("bridge", VStr "local module")] = inr loaded
    /\ dict_get "bridge" loaded
       = dict_get "bridge" [("bridge", VStr "local module")].
Proof.
  apply (load_spares_excluded two_names _ "bridge"). reflexivity.
Defined.

(** ** The session, continued *)

Lemma unload_flat_api_unbound (me : GhidraBridge.t) (w : World) :
  GhidraBridge.namespace me = None ->
  GhidraBridge.unload_flat_api None (me, w) = (inl NoNamespace, (me, w)).
Proof.
  intros Hns. unfold GhidraBridge.unload_flat_api, bind, GhidraBridge.self.
  cbn [fst snd]. now rewrite Hns.
Qed.

Lemma exit_unbound (me : GhidraBridge.t) (w : World) :
  GhidraBridge.namespace me = None ->
  GhidraBridge.__exit__ (me, w) = (inr tt, (me, w)).
Proof.
  intros Hns. unfold GhidraBridge.__exit__, bind, GhidraBridge.self.
  cbn [fst snd]. now rewrite Hns.
Qed.

Lemma unload_target_cases (me : GhidraBridge.t) (namespace : option loc)
    (l : loc) :
  unload_target me namespace = Some l ->
  namespace = Some l
  \/ (namespace = None /\ GhidraBridge.namespace me = Some l).
Proof. destruct namespace; simpl; intros H; [left | right]; auto. Qed.

Lemma unload_flat_api_local (me : GhidraBridge.t) (w : World)
    (namespace : option loc) :
  exists res w',
    GhidraBridge.unload_flat_api namespace (me, w) = (res, (me, w'))
    /\ tool_listeners w' = tool_listeners w
    /\ remote_calls w' = remote_calls w
    /\ next_object w' = next_object w
    /\ forall l', unload_target me namespace <> Some l' ->
                  heap w' l' = heap w l'.
Proof.
  destruct (unload_target me namespace) as [l|] eqn:Ht.
  - rewrite (unload_flat_api_run me w l) by now apply unload_target_cases.
    destruct (unload_namespace (heap w l)) as [e|d].
    + exists (inl e), w. repeat split; auto.
    + do 2 eexists. split; [reflexivity|]. cbn. repeat split; auto.
      intros l' Hl'. apply heap_set_other. congruence.
  - destruct namespace as [l|]; [discriminate|]. simpl in Ht.
    rewrite unload_flat_api_unbound by exact Ht.
    exists (inl NoNamespace), w. repeat split; auto.
Qed.

(** X9. [unload_flat_api] and [__exit__] work on one dictionary only:
    whether they return or raise, the session object, the listener list of
    the remote tool, the calls sent and every other dictionary are as before.
    In particular [__exit__] never unregisters the listener. *)
Theorem unload_and_exit_are_local (me : GhidraBridge.t) (w : World)
    (namespace : option loc) :
  (exists res w',
      GhidraBridge.unload_flat_api namespace (me, w) = (res, (me, w'))
      /\ tool_listeners w' = tool_listeners w
      /\ remote_calls w' = remote_calls w
      /\ forall l', unload_target me namespace <> Some l' ->
                    heap w' l' = heap w l')
  /\ (exists res w',
        GhidraBridge.__exit__ (me, w) = (res, (me, w'))
        /\ tool_listeners w' = tool_listeners w
        /\ remote_calls w' = remote_calls w
        /\ forall l', GhidraBridge.namespace me <> Some l' ->
                      heap w' l' = heap w l').
Proof.
  split.
  - destruct (unload_flat_api_local me w namespace)
      as (res & w' & Hrun & Ht & Hc & _ & Hh).
    exists res, w'. auto.
  - destruct (GhidraBridge.namespace me) as [l|] eqn:Hns.
    + rewrite (exit_run me w l Hns).
      destruct (unload_flat_api_local me w (Some l))
        as (res & w' & Hrun & Ht & Hc & _ & Hh).
      exists res, w'. auto.
    + rewrite exit_unbound by exact Hns.
      exists (inr tt), w. auto.
Qed.

(** X10. On a session that was built without a namespace,
    [unload_flat_api] without argument raises the exception of line 104 and
    [__exit__] returns; both leave the session and the world as they were. *)
Theorem unbound_session_unload (me : GhidraBridge.t) (w : World) :
  GhidraBridge.namespace me = None ->
  GhidraBridge.unload_flat_api None (me, w) = (inl NoNamespace, (me, w))
  /\ GhidraBridge.__exit__ (me, w) = (inr tt, (me, w)).
Proof.
  intros Hns. split;
    [now apply unload_flat_api_unbound | now apply exit_unbound].
Qed.

Lemma unbound_session_unload_witness :
  GhidraBridge.unload_flat_api None (fresh_session true, world_x)
    = (inl NoNamespace, (fresh_session true, world_x))
  /\ GhidraBridge.__exit__ (fresh_session true, world_x)
     = (inr tt, (fresh_session true, world_x)).
Proof.
  apply (unbound_session_unload (fresh_session true) world_x). reflexivity.
Defined.

(** Calls on a session that is not interactive, or has its listener, send
    nothing and leave the session object as it is. *)
Lemma get_flat_api_calls_plain (calls : list (RemoteMain * option loc)) :
  forall (me : GhidraBridge.t) (w : World),
    GhidraBridge.interactive_mode me = false
    \/ GhidraBridge.interactive_listener me <> None ->
    fst (get_flat_api_calls calls (me, w)) = me
    /\ remote_calls (snd (get_flat_api_calls calls (me, w))) = remote_calls w
    /\ tool_listeners (snd (get_flat_api_calls calls (me, w)))
       = tool_listeners w.
Proof.
  induction calls as [|[remote_main namespace] calls IH]; intros me w Hplain;
    cbn [get_flat_api_calls]; auto.
  destruct (get_flat_api_plain me w remote_main namespace Hplain)
    as (w' & Hrun & Ht & Hc & _).
  rewrite Hrun. cbn [snd].
  destruct (IH me w' Hplain) as (Hme & Hc' & Ht').
  repeat split; congruence.
Qed.

(** X11. Over any run of [get_flat_api] calls a session sends at most one
    call to the remote tool, an [addToolListener]: none when the session is
    not interactive or has its listener already, and exactly one, at the
    first call, otherwise. *)
Theorem listener_over_calls (calls : list (RemoteMain * option loc))
    (me : GhidraBridge.t) (w : World) :
  exists sent,
    remote_calls (snd (get_flat_api_calls calls (me, w)))
      = remote_calls w ++ sent
    /\ (sent = [] \/ exists tool listener,
                       sent = [addToolListener tool listener])
    /\ (GhidraBridge.interactive_mode me = false
        \/ GhidraBridge.interactive_listener me <> None
        \/ calls = [] ->
        sent = [])
    /\ (GhidraBridge.interactive_mode me = true ->
        GhidraBridge.interactive_listener me = None ->
        calls <> [] ->
        sent <> []).
Proof.
  destruct (GhidraBridge.interactive_mode me) eqn:Hmode.
  2:{ exists []. destruct (get_flat_api_calls_plain calls me w) as (_ & Hc & _);
        [now left|].
      rewrite app_nil_r. repeat split; auto; discriminate. }
  destruct (GhidraBridge.interactive_listener me) as [listener|] eqn:Hl.
  { exists []. destruct (get_flat_api_calls_plain calls me w) as (_ & Hc & _);
      [right; congruence|].
    rewrite app_nil_r. repeat split; auto; discriminate. }
  destruct calls as [|[remote_main namespace] calls].
  { exists []. cbn. rewrite app_nil_r. repeat split; auto. }
  destruct (get_flat_api_first me w remote_main namespace Hmode Hl)
    as (me' & w' & listener & Hrun & _ & Hl' & _ & _ & _ & _ & Hc & _).
  cbn [get_flat_api_calls]. rewrite Hrun. cbn [snd].
  destruct (get_flat_api_calls_plain calls me' w') as (_ & Hc' & _);
    [right; congruence|].
  eexists. split; [rewrite Hc', Hc; reflexivity|].
  split; [right; eauto|]. split.
  - intros [H | [H | H]]; [discriminate | congruence | discriminate].
  - discriminate.
Qed.

(** [__init__] with a namespace, a host and a port. *)
Lemma init_with_namespace (host : string) (port : nat) (level : option nat)
    (l : loc) (interactive : bool) (remote_main : RemoteMain) (w : World) :
  exists me w',
    GhidraBridge.__init__ (Some host) (Some port) level (Some l) interactive
                          remote_main w
      = (inr tt, (me, w'))
    /\ GhidraBridge.namespace me = Some l
    /\ load_namespace remote_main (heap w l) = inr (heap w' l)
    /\ forall l', l' <> l -> heap w' l' = heap w l'.
Proof.
  unfold GhidraBridge.__init__.
  unfold bind at 1. unfold GhidraBridge.set_namespace at 1. cbn [fst snd].
  set (me0 := {| GhidraBridge.bridge := _ |}).
  destruct interactive.
  - destruct (get_flat_api_first me0 w remote_main (Some l))
      as (me' & w' & listener & Hrun & _ & _ & _ & _ & Hn & _ & _
          & Hload & Hframe); try reflexivity.
    unfold bind. rewrite Hrun. unfold ret. exists me', w'. auto.
  - destruct (get_flat_api_plain me0 w remote_main (Some l))
      as (w' & Hrun & _ & _ & _ & Hload & Hframe); [now left|].
    unfold bind. rewrite Hrun. unfold ret. exists me0, w'. auto.
Qed.

(** X12. The whole [with] block: once the session is built on a
    namespace, the body binds and deletes names of its own (none of the
    projected names, not the sentinel key), and [__exit__] unloads.
    [__enter__] hands back the session as it is, [__exit__] returns, and
    afterwards no projected name with a value [==] to itself is bound, every
    unprojected name but the sentinel key is as the body alone would have
    left it, and every other dictionary is untouched. *)
Theorem with_block (host : string) (port : nat) (level : option nat)
    (l : loc) (interactive : bool) (remote_main : RemoteMain) (w : World)
    (body : list caller_op) (me : GhidraBridge.t) (entered : World) :
  Forall (fun o => op_name o <> GHIDRA_BRIDGE_NAMESPACE_TRACK
                   /\ ~ In (op_name o) (projected_names remote_main)) body ->
  GhidraBridge.__init__ (Some host) (Some port) level (Some l) interactive
                        remote_main w
    = (inr tt, (me, entered)) ->
  GhidraBridge.__enter__ (me, entered) = (inr me, (me, entered))
  /\ exists left,
       GhidraBridge.__exit__ (me, caller_edits l body entered)
         = (inr tt, (me, left))
       /\ (forall k, In k (projected_names remote_main) ->
                     py_eq (getattr remote_main k) (getattr remote_main k)
                       = true ->
                     dict_get k (heap left l) = None)
       /\ (forall k, ~ In k (projected_names remote_main) ->
                     k <> GHIDRA_BRIDGE_NAMESPACE_TRACK ->
                     dict_get k (heap left l)
                     = dict_get k (caller_steps body (heap w l)))
       /\ (forall l', l' <> l -> heap left l' = heap w l').
Proof.
  intros Hbody Hbuilt.
  assert (forall k, k = GHIDRA_BRIDGE_NAMESPACE_TRACK
                    \/ In k (projected_names remote_main) ->
                    ~ In k (map op_name body)) as Hown.
  { intros k Hk Hin. apply in_map_iff in Hin.
    destruct Hin as (o & <- & Ho).
    rewrite Forall_forall in Hbody. destruct (Hbody o Ho) as [H1 H2].
    destruct Hk; auto. }
  destruct (init_with_namespace host port level l interactive remote_main w)
    as (me' & entered' & Hinit & Hns & Hload & Hframe).
  rewrite Hbuilt in Hinit. injection Hinit as <- <-.
  destruct (load_namespace_record remote_main (heap w l))
    as (loaded & Hload' & Hrec & Hin & Hout).
  assert (heap entered l = loaded) as Hl by congruence.
  set (edited := caller_steps body loaded).
  assert (dict_get GHIDRA_BRIDGE_NAMESPACE_TRACK edited
          = Some (VDict (record_of remote_main))) as Hrec'.
  { unfold edited. rewrite caller_steps_other; auto. }
  assert (forall k, In k (projected_names remote_main) ->
                    dict_get k edited = Some (getattr remote_main k)) as Hin'.
  { intros k Hk. unfold edited. rewrite caller_steps_other; auto. }
  destruct (unload_after_load remote_main edited Hrec' Hin')
    as (unloaded & Hun & Hgone & _ & Hkept).
  split; [reflexivity|]. eexists. split.
  { rewrite (exit_run _ _ l Hns), (unload_flat_api_run _ _ l) by auto.
    cbn [caller_edits heap]. rewrite heap_set_same, Hl.
    fold edited. rewrite Hun. reflexivity. }
  cbn [heap]. rewrite heap_set_same. split; [exact Hgone|]. split.
  - intros k Hk Hks. rewrite Hkept by exact Hk.
    apply caller_steps_get. now apply Hout.
  - intros l' Hl'. rewrite !heap_set_other by exact Hl'. now apply Hframe.
Qed.

Lemma with_block_witness :
  GhidraBridge.__enter__ (snd session_x)
    = (inr (fst (snd session_x)), snd session_x)
  /\ exists left,
       GhidraBridge.__exit__
         (fst (snd session_x),
          caller_edits 3 [Rebind "y" (VInt 2); Unbind "x"]
                       (snd (snd session_x)))
         = (inr tt, (fst (snd session_x), left))
       /\ (forall k, In k (projected_names two_names) ->
                     py_eq (getattr two_names k) (getattr two_names k) = true ->
                     dict_get k (heap left 3) = None)
       /\ (forall k, ~ In k (projected_names two_names) ->
                     k <> GHIDRA_BRIDGE_NAMESPACE_TRACK ->
                     dict_get k (heap left 3)
                     = dict_get k (caller_steps
                                     [Rebind "y" (VInt 2); Unbind "x"]
                                     (heap world_x 3)))
       /\ (forall l', l' <> 3 -> heap left l' = heap world_x l').
Proof.
  apply (with_block "127.0.0.1" 4768 None 3 true two_names world_x
           [Rebind "y" (VInt 2); Unbind "x"]
           (fst (snd session_x)) (snd (snd session_x))).
  - repeat constructor; simpl; intuition discriminate.
  - reflexivity.
Defined.

Lemma get_flat_api_frame (me : GhidraBridge.t) (w : World)
    (remote_main : RemoteMain) (namespace : option loc) :
  exists me' w',
    GhidraBridge.get_flat_api remote_main namespace (me, w)
      = (inr remote_main, (me', w'))
    /\ GhidraBridge.namespace me' = GhidraBridge.namespace me
    /\ GhidraBridge.bridge me' = GhidraBridge.bridge me
    /\ GhidraBridge.interactive_mode me' = GhidraBridge.interactive_mode me
    /\ forall l', namespace <> Some l' -> heap w' l' = heap w l'.
Proof.
  assert (forall w' : World,
             match namespace with
             | Some l => load_namespace remote_main (heap w l)
                           = inr (heap w' l)
                         /\ (forall l', l' <> l -> heap w' l' = heap w l')
             | None => heap w' = heap w
             end ->
             forall l', namespace <> Some l' -> heap w' l' = heap w l') as Hh.
  { intros w' H l' Hl'. destruct namespace as [l|].
    - apply H. congruence.
    - now rewrite H. }
  destruct (GhidraBridge.interactive_mode me) eqn:Hmode;
    [destruct (GhidraBridge.interactive_listener me) eqn:Hl|].
  - destruct (get_flat_api_plain me w remote_main namespace)
      as (w' & Hrun & _ & _ & _ & Hheap); [right; congruence|].
    exists me, w'. repeat split; auto. apply Hh.
    destruct namespace; auto. now rewrite Hheap.
  - destruct (get_flat_api_first me w remote_main namespace Hmode Hl)
      as (me' & w' & listener & Hrun & _ & _ & Hm & Hb & Hn & _ & _ & Hheap).
    exists me', w'. split; [exact Hrun|]. split; [exact Hn|].
    split; [exact Hb|]. split; [congruence|]. now apply Hh.
  - destruct (get_flat_api_plain me w remote_main namespace)
      as (w' & Hrun & _ & _ & _ & Hheap); [now left|].
    exists me, w'. repeat split; auto. apply Hh.
    destruct namespace; auto. now rewrite Hheap.
Qed.

(** X13. Whatever a call of [get_flat_api] ends with, it has written to no
    dictionary but the one it was given, none at all without a namespace,
    and has left the session's [namespace], [bridge] and [interactive_mode]
    as they were; what it returns is the module it imported. *)
Theorem get_flat_api_writes_one (me : GhidraBridge.t) (w : World)
    (remote_main : RemoteMain) (namespace : option loc)
    (res : result RemoteMain) (me' : GhidraBridge.t) (w' : World) :
  GhidraBridge.get_flat_api remote_main namespace (me, w) = (res, (me', w')) ->
  (forall l', namespace <> Some l' -> heap w' l' = heap w l')
  /\ GhidraBridge.namespace me' = GhidraBridge.namespace me
  /\ GhidraBridge.bridge me' = GhidraBridge.bridge me
  /\ GhidraBridge.interactive_mode me' = GhidraBridge.interactive_mode me
  /\ (forall returned, res = inr returned -> returned = remote_main).
Proof.
  intros Hrun.
  destruct (get_flat_api_frame me w remote_main namespace)
    as (me1 & w1 & Hrun1 & Hn & Hb & Hm & Hh).
  rewrite Hrun in Hrun1. injection Hrun1 as -> -> ->.
  repeat split; auto. now intros returned [= ->].
Qed.

Lemma get_flat_api_writes_one_witness :
  (forall l', Some 3 <> Some l' ->
              heap (snd (snd (GhidraBridge.get_flat_api two_names (Some 3)
                                (fresh_session true, world_x)))) l'
              = heap world_x l')
  /\ GhidraBridge.namespace
       (fst (snd (GhidraBridge.get_flat_api two_names (Some 3)
                    (fresh_session true, world_x))))
     = GhidraBridge.namespace (fresh_session true)
  /\ GhidraBridge.bridge
       (fst (snd (GhidraBridge.get_flat_api two_names (Some 3)
                    (fresh_session true, world_x))))
     = GhidraBridge.bridge (fresh_session true)
  /\ GhidraBridge.interactive_mode
       (fst (snd (GhidraBridge.get_flat_api two_names (Some 3)
                    (fresh_session true, world_x))))
     = GhidraBridge.interactive_mode (fresh_session true)
  /\ (forall returned,
        fst (GhidraBridge.get_flat_api two_names (Some 3)
               (fresh_session true, world_x)) = inr returned ->
        returned = two_names).
Proof.
  apply (get_flat_api_writes_one (fresh_session true) world_x two_names
           (Some 3)).
  reflexivity.
Defined.
